(** * CMatrix4x4: the 4x4 matrix utility of the IndexBuffer sample

    A shallow embedding of [IndexBuffer/Utility/CMatrix4x4.h], and of what
    [IndexBuffer/Scene.cpp] computes with it: the cube's orientation in
    [UpdateScene] and the cube's mesh.

    The C++ class stores sixteen [float]s.  Every function of the header is
    translated once, over an abstract scalar type with the operations the
    header uses ([Arith]); the translation is then read at two instances:

    - [R_arith]: the real numbers, for the algebraic laws that hold in exact
      arithmetic;
    - [Binary32.arith]: IEEE 754 single precision (round to nearest even,
      one rounding per operation, no contraction), built on [SpecFloat], for
      what the code does on actual [float]s: it computes, and it has signed
      zeros, infinities and NaN. *)

From Stdlib Require Import ZArith Bool List Lia.
From Stdlib Require Import Reals Lra.
From Stdlib Require Import Floats.SpecFloat.

Set Implicit Arguments.

(** ** Scalars *)

(** The operations [CMatrix4x4.h] applies to a [float]: the literals [0] and
    [1], the four arithmetic operators, unary minus, [std::sin], [std::cos]. *)
Class Arith (F : Type) : Type := {
  fzero : F;
  fone  : F;
  fadd  : F -> F -> F;
  fsub  : F -> F -> F;
  fmul  : F -> F -> F;
  fdiv  : F -> F -> F;
  fneg  : F -> F;
  fsin  : F -> F;
  fcos  : F -> F
}.

Declare Scope arith_scope.
Delimit Scope arith_scope with A.
Notation "a + b" := (fadd a b) : arith_scope.
Notation "a - b" := (fsub a b) : arith_scope.
Notation "a * b" := (fmul a b) : arith_scope.
Notation "a / b" := (fdiv a b) : arith_scope.
Notation "- a" := (fneg a) : arith_scope.

(** ** Data *)

(** Modelled from the spec: [CVector3.h] is included by the header but is not
    among the sources; the spec gives the type as three floats (x, y, z), and
    the header reads the members [x], [y], [z] and calls the three-argument
    constructor. *)
Record CVector3 (F : Type) : Type := mkCVector3 { x : F; y : F; z : F }.

(** The sixteen members, in declaration order. *)
Record CMatrix4x4 (F : Type) : Type := mkCMatrix4x4 {
  e00 : F; e01 : F; e02 : F; e03 : F;
  e10 : F; e11 : F; e12 : F; e13 : F;
  e20 : F; e21 : F; e22 : F; e23 : F;
  e30 : F; e31 : F; e32 : F; e33 : F
}.

Arguments mkCVector3 {F} _ _ _.
Arguments mkCMatrix4x4 {F} _ _ _ _ _ _ _ _ _ _ _ _ _ _ _ _.

(** Member names as values, to read and write a member chosen at run time. *)
Inductive field : Type :=
  | E00 | E01 | E02 | E03
  | E10 | E11 | E12 | E13
  | E20 | E21 | E22 | E23
  | E30 | E31 | E32 | E33.

(** Row and column numbers of the range 0..3. *)
Inductive idx : Type := I0 | I1 | I2 | I3.

Definition fld (r c : idx) : field :=
  match r, c with
  | I0, I0 => E00 | I0, I1 => E01 | I0, I2 => E02 | I0, I3 => E03
  | I1, I0 => E10 | I1, I1 => E11 | I1, I2 => E12 | I1, I3 => E13
  | I2, I0 => E20 | I2, I1 => E21 | I2, I2 => E22 | I2, I3 => E23
  | I3, I0 => E30 | I3, I1 => E31 | I3, I2 => E32 | I3, I3 => E33
  end.

(** The offset of a member from [&e00], in floats. *)
Definition offset (f : field) : Z :=
  match f with
  | E00 => 0 | E01 => 1 | E02 => 2 | E03 => 3
  | E10 => 4 | E11 => 5 | E12 => 6 | E13 => 7
  | E20 => 8 | E21 => 9 | E22 => 10 | E23 => 11
  | E30 => 12 | E31 => 13 | E32 => 14 | E33 => 15
  end%Z.

(** The members of the last column. *)
Definition last_column (f : field) : bool :=
  match f with
  | E03 | E13 | E23 | E33 => true
  | _ => false
  end.

Section Members.
Context {F : Type}.

Definition get (f : field) (M : CMatrix4x4 F) : F :=
  match f with
  | E00 => e00 M | E01 => e01 M | E02 => e02 M | E03 => e03 M
  | E10 => e10 M | E11 => e11 M | E12 => e12 M | E13 => e13 M
  | E20 => e20 M | E21 => e21 M | E22 => e22 M | E23 => e23 M
  | E30 => e30 M | E31 => e31 M | E32 => e32 M | E33 => e33 M
  end.

Definition set (f : field) (v : F) (M : CMatrix4x4 F) : CMatrix4x4 F :=
  let '(mkCMatrix4x4 a00 a01 a02 a03 a10 a11 a12 a13
                     a20 a21 a22 a23 a30 a31 a32 a33) := M in
  match f with
  | E00 => mkCMatrix4x4 v a01 a02 a03 a10 a11 a12 a13 a20 a21 a22 a23 a30 a31 a32 a33
  | E01 => mkCMatrix4x4 a00 v a02 a03 a10 a11 a12 a13 a20 a21 a22 a23 a30 a31 a32 a33
  | E02 => mkCMatrix4x4 a00 a01 v a03 a10 a11 a12 a13 a20 a21 a22 a23 a30 a31 a32 a33
  | E03 => mkCMatrix4x4 a00 a01 a02 v a10 a11 a12 a13 a20 a21 a22 a23 a30 a31 a32 a33
  | E10 => mkCMatrix4x4 a00 a01 a02 a03 v a11 a12 a13 a20 a21 a22 a23 a30 a31 a32 a33
  | E11 => mkCMatrix4x4 a00 a01 a02 a03 a10 v a12 a13 a20 a21 a22 a23 a30 a31 a32 a33
  | E12 => mkCMatrix4x4 a00 a01 a02 a03 a10 a11 v a13 a20 a21 a22 a23 a30 a31 a32 a33
  | E13 => mkCMatrix4x4 a00 a01 a02 a03 a10 a11 a12 v a20 a21 a22 a23 a30 a31 a32 a33
  | E20 => mkCMatrix4x4 a00 a01 a02 a03 a10 a11 a12 a13 v a21 a22 a23 a30 a31 a32 a33
  | E21 => mkCMatrix4x4 a00 a01 a02 a03 a10 a11 a12 a13 a20 v a22 a23 a30 a31 a32 a33
  | E22 => mkCMatrix4x4 a00 a01 a02 a03 a10 a11 a12 a13 a20 a21 v a23 a30 a31 a32 a33
  | E23 => mkCMatrix4x4 a00 a01 a02 a03 a10 a11 a12 a13 a20 a21 a22 v a30 a31 a32 a33
  | E30 => mkCMatrix4x4 a00 a01 a02 a03 a10 a11 a12 a13 a20 a21 a22 a23 v a31 a32 a33
  | E31 => mkCMatrix4x4 a00 a01 a02 a03 a10 a11 a12 a13 a20 a21 a22 a23 a30 v a32 a33
  | E32 => mkCMatrix4x4 a00 a01 a02 a03 a10 a11 a12 a13 a20 a21 a22 a23 a30 a31 v a33
  | E33 => mkCMatrix4x4 a00 a01 a02 a03 a10 a11 a12 a13 a20 a21 a22 a23 a30 a31 a32 v
  end.

(** The element of row [r], column [c]: the member [e_rc]. *)
Definition entry (M : CMatrix4x4 F) (r c : idx) : F := get (fld r c) M.

(** *** The object as sixteen consecutive floats

    [SetRow] and [GetRow] take [&e00 + iRow * 4] and index it: they rely on
    the members lying one after the other, in declaration order, with no
    padding.  [member_at i] is the member [(&e00)[i]] designates; outside
    the object there is none, and the access is undefined. *)
Definition member_at (i : Z) : option field :=
  match i with
  | 0 => Some E00 | 1 => Some E01 | 2 => Some E02 | 3 => Some E03
  | 4 => Some E10 | 5 => Some E11 | 6 => Some E12 | 7 => Some E13
  | 8 => Some E20 | 9 => Some E21 | 10 => Some E22 | 11 => Some E23
  | 12 => Some E30 | 13 => Some E31 | 14 => Some E32 | 15 => Some E33
  | _ => None
  end%Z.

(** Reading [p[i]] and executing [p[i] = v], for [p = &e00]. *)
Definition load (M : CMatrix4x4 F) (i : Z) : option F :=
  option_map (fun f => get f M) (member_at i).

Definition store (M : CMatrix4x4 F) (i : Z) (v : F) : option (CMatrix4x4 F) :=
  option_map (fun f => set f v M) (member_at i).

End Members.

(** Sequencing of steps that may be undefined. *)
Definition bind {A B : Type} (a : option A) (k : A -> option B) : option B :=
  match a with
  | Some v => k v
  | None => None
  end.

Notation "'do' v <- a ; k" := (bind a (fun v => k))
  (at level 10, v name, a at level 100, k at level 200).

(** ** Row accessors *)

Section Rows.
Context {F : Type}.

(** [void SetRow(int iRow, const CVector3& v)]: the matrix after the call,
    [None] when an access falls outside the object. *)
Definition SetRow (M : CMatrix4x4 F) (iRow : Z) (v : CVector3 F)
  : option (CMatrix4x4 F) :=
  let pfElts := (iRow * 4)%Z in
  do M <- store M (pfElts + 0) (x v);
  do M <- store M (pfElts + 1) (y v);
  store M (pfElts + 2) (z v).

(** [CVector3 GetRow(int iRow) const]. *)
Definition GetRow (M : CMatrix4x4 F) (iRow : Z) : option (CVector3 F) :=
  let pfElts := (iRow * 4)%Z in
  do a <- load M (pfElts + 0);
  do b <- load M (pfElts + 1);
  do c <- load M (pfElts + 2);
  Some (mkCVector3 a b c).
End Rows.

(** ** Multiplication *)

Section Multiplication.
Context {F : Type} `{Arith F}.
Local Open Scope arith_scope.

(** [CMatrix4x4 operator*(const CMatrix4x4& m1, const CMatrix4x4& m2)].
    The operands are only read and the result is a fresh object, so the
    function of the two values is the whole behaviour, aliased or not. *)
Definition operator_mul (m1 m2 : CMatrix4x4 F) : CMatrix4x4 F :=
  {| e00 := e00 m1 * e00 m2 + e01 m1 * e10 m2 + e02 m1 * e20 m2 + e03 m1 * e30 m2;
     e01 := e00 m1 * e01 m2 + e01 m1 * e11 m2 + e02 m1 * e21 m2 + e03 m1 * e31 m2;
     e02 := e00 m1 * e02 m2 + e01 m1 * e12 m2 + e02 m1 * e22 m2 + e03 m1 * e32 m2;
     e03 := e00 m1 * e03 m2 + e01 m1 * e13 m2 + e02 m1 * e23 m2 + e03 m1 * e33 m2;

     e10 := e10 m1 * e00 m2 + e11 m1 * e10 m2 + e12 m1 * e20 m2 + e13 m1 * e30 m2;
     e11 := e10 m1 * e01 m2 + e11 m1 * e11 m2 + e12 m1 * e21 m2 + e13 m1 * e31 m2;
     e12 := e10 m1 * e02 m2 + e11 m1 * e12 m2 + e12 m1 * e22 m2 + e13 m1 * e32 m2;
     e13 := e10 m1 * e03 m2 + e11 m1 * e13 m2 + e12 m1 * e23 m2 + e13 m1 * e33 m2;

     e20 := e20 m1 * e00 m2 + e21 m1 * e10 m2 + e22 m1 * e20 m2 + e23 m1 * e30 m2;
     e21 := e20 m1 * e01 m2 + e21 m1 * e11 m2 + e22 m1 * e21 m2 + e23 m1 * e31 m2;
     e22 := e20 m1 * e02 m2 + e21 m1 * e12 m2 + e22 m1 * e22 m2 + e23 m1 * e32 m2;
     e23 := e20 m1 * e03 m2 + e21 m1 * e13 m2 + e22 m1 * e23 m2 + e23 m1 * e33 m2;

     e30 := e30 m1 * e00 m2 + e31 m1 * e10 m2 + e32 m1 * e20 m2 + e33 m1 * e30 m2;
     e31 := e30 m1 * e01 m2 + e31 m1 * e11 m2 + e32 m1 * e21 m2 + e33 m1 * e31 m2;
     e32 := e30 m1 * e02 m2 + e31 m1 * e12 m2 + e32 m1 * e22 m2 + e33 m1 * e32 m2;
     e33 := e30 m1 * e03 m2 + e31 m1 * e13 m2 + e32 m1 * e23 m2 + e33 m1 * e33 m2 |}.

(** The four-term sum [f 0 + f 1 + f 2 + f 3], added left to right as C++
    parses an unparenthesised sum. *)
Definition sum4 (f : idx -> F) : F := f I0 + f I1 + f I2 + f I3.

(** *** In-place multiplication

    [operator*=] writes the members of [*this] while it still reads those of
    its argument, and the argument is a reference that may designate [*this]
    itself.  Matrix objects therefore live in a memory, at addresses; [this]
    and [&m] are two addresses, equal when the operands are one object. *)
Definition addr : Type := nat.
Definition memory : Type := addr -> CMatrix4x4 F.

(** [p->f] read, and [p->f = v] executed, in memory [h]. *)
Definition rd (h : memory) (p : addr) (f : field) : F := get f (h p).

Definition wr (h : memory) (p : addr) (f : field) (v : F) : memory :=
  fun q => if Nat.eqb q p then set f v (h p) else h q.

(** [*p = M]. *)
Definition assign (h : memory) (p : addr) (M : CMatrix4x4 F) : memory :=
  fun q => if Nat.eqb q p then M else h q.

(** The [else] branch of [operator*=], statement by statement, one definition
    for each of its four groups of seven statements.  Each read goes to the
    memory as the statements before it left it. *)
Definition inplace_row0 (this m : addr) (h : memory) : memory :=
  let t0 := rd h this E00 * rd h m E00 + rd h this E01 * rd h m E10 + rd h this E02 * rd h m E20 + rd h this E03 * rd h m E30 in
  let t1 := rd h this E00 * rd h m E01 + rd h this E01 * rd h m E11 + rd h this E02 * rd h m E21 + rd h this E03 * rd h m E31 in
  let t2 := rd h this E00 * rd h m E02 + rd h this E01 * rd h m E12 + rd h this E02 * rd h m E22 + rd h this E03 * rd h m E32 in
  let h := wr h this E03 (rd h this E00 * rd h m E03 + rd h this E01 * rd h m E13 + rd h this E02 * rd h m E23 + rd h this E03 * rd h m E33) in
  let h := wr h this E00 t0 in
  let h := wr h this E01 t1 in
  let h := wr h this E02 t2 in
  h.

Definition inplace_row1 (this m : addr) (h : memory) : memory :=
  let t0 := rd h this E10 * rd h m E00 + rd h this E11 * rd h m E10 + rd h this E12 * rd h m E20 + rd h this E13 * rd h m E30 in
  let t1 := rd h this E10 * rd h m E01 + rd h this E11 * rd h m E11 + rd h this E12 * rd h m E21 + rd h this E13 * rd h m E31 in
  let t2 := rd h this E10 * rd h m E02 + rd h this E11 * rd h m E12 + rd h this E12 * rd h m E22 + rd h this E13 * rd h m E32 in
  let h := wr h this E13 (rd h this E10 * rd h m E03 + rd h this E11 * rd h m E13 + rd h this E12 * rd h m E23 + rd h this E13 * rd h m E33) in
  let h := wr h this E10 t0 in
  let h := wr h this E11 t1 in
  let h := wr h this E12 t2 in
  h.

Definition inplace_row2 (this m : addr) (h : memory) : memory :=
  let t0 := rd h this E20 * rd h m E00 + rd h this E21 * rd h m E10 + rd h this E22 * rd h m E20 + rd h this E23 * rd h m E30 in
  let t1 := rd h this E20 * rd h m E01 + rd h this E21 * rd h m E11 + rd h this E22 * rd h m E21 + rd h this E23 * rd h m E31 in
  let t2 := rd h this E20 * rd h m E02 + rd h this E21 * rd h m E12 + rd h this E22 * rd h m E22 + rd h this E23 * rd h m E32 in
  let h := wr h this E23 (rd h this E20 * rd h m E03 + rd h this E21 * rd h m E13 + rd h this E22 * rd h m E23 + rd h this E23 * rd h m E33) in
  let h := wr h this E20 t0 in
  let h := wr h this E21 t1 in
  let h := wr h this E22 t2 in
  h.

Definition inplace_row3 (this m : addr) (h : memory) : memory :=
  let t0 := rd h this E30 * rd h m E00 + rd h this E31 * rd h m E10 + rd h this E32 * rd h m E20 + rd h this E33 * rd h m E30 in
  let t1 := rd h this E30 * rd h m E01 + rd h this E31 * rd h m E11 + rd h this E32 * rd h m E21 + rd h this E33 * rd h m E31 in
  let t2 := rd h this E30 * rd h m E02 + rd h this E31 * rd h m E12 + rd h this E32 * rd h m E22 + rd h this E33 * rd h m E32 in
  let h := wr h this E33 (rd h this E30 * rd h m E03 + rd h this E31 * rd h m E13 + rd h this E32 * rd h m E23 + rd h this E33 * rd h m E33) in
  let h := wr h this E30 t0 in
  let h := wr h this E31 t1 in
  let h := wr h this E32 t2 in
  h.

Definition inplace_rows (this m : addr) (h : memory) : memory :=
  let h := inplace_row0 this m h in
  let h := inplace_row1 this m h in
  let h := inplace_row2 this m h in
  let h := inplace_row3 this m h in
  h.

(** [CMatrix4x4& operator*=(const CMatrix4x4& m)]: the memory after the
    call.  The returned reference is [this]. *)
Definition operator_mul_assign (this m : addr) (h : memory) : memory :=
  if Nat.eqb this m
  then assign h this (operator_mul (h m) (h m))
  else inplace_rows this m h.
(** Row [r] of [a] replaced by the product of that row with [b]; the other
    rows kept. *)
Definition with_row_product (r : idx) (a b : CMatrix4x4 F) : CMatrix4x4 F :=
  let dot c := sum4 (fun k => entry a r k * entry b k c) in
  set (fld r I2) (dot I2)
    (set (fld r I1) (dot I1)
      (set (fld r I0) (dot I0)
        (set (fld r I3) (dot I3) a))).
End Multiplication.

(** ** Constructors of transformations *)

Section Constructors.
Context {F : Type} `{Arith F}.
Local Open Scope arith_scope.
Local Notation "0" := fzero.
Local Notation "1" := fone.

(** [void MakeIdentity()], as the value [*this] receives. *)
Definition MakeIdentity (this : CMatrix4x4 F) : CMatrix4x4 F :=
  mkCMatrix4x4 1 0 0 0
               0 1 0 0
               0 0 1 0
               0 0 0 1.

Definition MatrixIdentity : CMatrix4x4 F :=
  mkCMatrix4x4 1 0 0 0
               0 1 0 0
               0 0 1 0
               0 0 0 1.

Definition MatrixTranslation (t : CVector3 F) : CMatrix4x4 F :=
  mkCMatrix4x4 1 0 0 0
               0 1 0 0
               0 0 1 0
               (x t) (y t) (z t) 1.

Definition MatrixRotationX (a : F) : CMatrix4x4 F :=
  let sX := fsin a in
  let cX := fcos a in
  mkCMatrix4x4 1 0 0 0
               0 cX sX 0
               0 (- sX) cX 0
               0 0 0 1.

Definition MatrixRotationY (a : F) : CMatrix4x4 F :=
  let sY := fsin a in
  let cY := fcos a in
  mkCMatrix4x4 cY 0 (- sY) 0
               0 1 0 0
               sY 0 cY 0
               0 0 0 1.

Definition MatrixRotationZ (a : F) : CMatrix4x4 F :=
  let sZ := fsin a in
  let cZ := fcos a in
  mkCMatrix4x4 cZ sZ 0 0
               (- sZ) cZ 0 0
               0 0 1 0
               0 0 0 1.

(** The two overloads of [MatrixScaling]. *)
Definition MatrixScaling (s : CVector3 F) : CMatrix4x4 F :=
  mkCMatrix4x4 (x s) 0 0 0
               0 (y s) 0 0
               0 0 (z s) 0
               0 0 0 1.

Definition MatrixScaling_uniform (s : F) : CMatrix4x4 F :=
  mkCMatrix4x4 s 0 0 0
               0 s 0 0
               0 0 s 0
               0 0 0 1.
End Constructors.

(** ** Affine inverse *)

Section Inverse.
Context {F : Type} `{Arith F}.
Local Open Scope arith_scope.

(** [CMatrix4x4 InverseAffine(const CMatrix4x4& m)]. *)
Definition InverseAffine (m : CMatrix4x4 F) : CMatrix4x4 F :=
  let det0 := e11 m * e22 m - e12 m * e21 m in
  let det1 := e12 m * e20 m - e10 m * e22 m in
  let det2 := e10 m * e21 m - e11 m * e20 m in
  let det := e00 m * det0 + e01 m * det1 + e02 m * det2 in

  let invDet := fone / det in
  let o00 := invDet * det0 in
  let o10 := invDet * det1 in
  let o20 := invDet * det2 in

  let o01 := invDet * (e21 m * e02 m - e22 m * e01 m) in
  let o11 := invDet * (e22 m * e00 m - e20 m * e02 m) in
  let o21 := invDet * (e20 m * e01 m - e21 m * e00 m) in

  let o02 := invDet * (e01 m * e12 m - e02 m * e11 m) in
  let o12 := invDet * (e02 m * e10 m - e00 m * e12 m) in
  let o22 := invDet * (e00 m * e11 m - e01 m * e10 m) in

  let o30 := - e30 m * o00 - e31 m * o10 - e32 m * o20 in
  let o31 := - e30 m * o01 - e31 m * o11 - e32 m * o21 in
  let o32 := - e30 m * o02 - e31 m * o12 - e32 m * o22 in

  {| e00 := o00; e01 := o01; e02 := o02; e03 := fzero;
     e10 := o10; e11 := o11; e12 := o12; e13 := fzero;
     e20 := o20; e21 := o21; e22 := o22; e23 := fzero;
     e30 := o30; e31 := o31; e32 := o32; e33 := fone |}.

(** The value the local [det] of [InverseAffine] receives. *)
Definition InverseAffine_det (m : CMatrix4x4 F) : F :=
  let det0 := e11 m * e22 m - e12 m * e21 m in
  let det1 := e12 m * e20 m - e10 m * e22 m in
  let det2 := e10 m * e21 m - e11 m * e20 m in
  e00 m * det0 + e01 m * det1 + e02 m * det2.
End Inverse.

(** ** The two readings of [float] *)

(** Exact arithmetic: the real numbers. *)
#[export] Instance R_arith : Arith R := {|
  fzero := 0%R;
  fone  := 1%R;
  fadd  := Rplus;
  fsub  := Rminus;
  fmul  := Rmult;
  fdiv  := Rdiv;
  fneg  := Ropp;
  fsin  := sin;
  fcos  := cos
|}.

(** The last column of an affine matrix. *)
Definition affine (M : CMatrix4x4 R) : Prop :=
  (e03 M = 0 /\ e13 M = 0 /\ e23 M = 0 /\ e33 M = 1)%R.

(** The determinant of the upper-left 3x3 block, by the rule of Sarrus. *)
Definition det3x3 (M : CMatrix4x4 R) : R :=
  (e00 M * e11 M * e22 M + e01 M * e12 M * e20 M + e02 M * e10 M * e21 M
   - e02 M * e11 M * e20 M - e01 M * e10 M * e22 M - e00 M * e12 M * e21 M)%R.

(** IEEE 754 binary32: 24 bits of precision, exponent of the infinities 128.
    [SpecFloat] has no library functions: [std::sin] and [std::cos] on
    [float] are taken as given. *)
Module Binary32.
Definition prec : Z := 24.
Definition emax : Z := 128.

Definition float : Type := spec_float.

(** The [float] an integer literal converts to. *)
Definition of_Z (n : Z) : float := binary_normalize prec emax n 0 false.

Definition arith (sinf cosf : float -> float) : Arith float := {|
  fzero := S754_zero false;
  fone  := of_Z 1;
  fadd  := SFadd prec emax;
  fsub  := SFsub prec emax;
  fmul  := SFmul prec emax;
  fdiv  := SFdiv prec emax;
  fneg  := SFopp;
  fsin  := sinf;
  fcos  := cosf
|}.

(** The comparison [a == b] of C++ on floats. *)
Definition eqb (a b : float) : bool := SFeqb a b.

Definition is_zero (a : float) : bool :=
  match a with
  | S754_zero _ => true
  | _ => false
  end.

(** A zero, a subnormal or a normal number of the format. *)
Definition finite (a : float) : bool :=
  match a with
  | S754_zero _ => true
  | S754_finite _ m e => bounded prec emax m e
  | _ => false
  end.


(** [a'] is [a], or both are zeros. *)
Definition same_value (a' a : float) : Prop :=
  match a with
  | S754_zero _ => is_zero a' = true
  | _ => a' = a
  end.

(** Every member satisfies [p]. *)
Definition all_members (p : field -> bool) : bool :=
  forallb p (E00 :: E01 :: E02 :: E03 :: E10 :: E11 :: E12 :: E13
             :: E20 :: E21 :: E22 :: E23 :: E30 :: E31 :: E32 :: E33 :: nil).

Definition all_finite (M : CMatrix4x4 float) : bool :=
  all_members (fun f => finite (get f M)).

(** [==] on every member. *)
Definition matrix_eqb (A B : CMatrix4x4 float) : bool :=
  all_members (fun f => eqb (get f A) (get f B)).
End Binary32.

(** ** Concrete inputs *)

Module Inputs.
Import Binary32.

(** [float] with [std::sin] and [std::cos] left out: the matrices below do
    not call them. *)
#[export] Instance plain : Arith float := arith (fun a => a) (fun a => a).

Definition ints {F : Type} (num : Z -> F)
  (a00 a01 a02 a03 a10 a11 a12 a13 a20 a21 a22 a23 a30 a31 a32 a33 : Z)
  : CMatrix4x4 F :=
  mkCMatrix4x4 (num a00) (num a01) (num a02) (num a03)
               (num a10) (num a11) (num a12) (num a13)
               (num a20) (num a21) (num a22) (num a23)
               (num a30) (num a31) (num a32) (num a33).

(** A scaling, a shear and a translation, over the reals. *)
Definition sheared : CMatrix4x4 R :=
  ints IZR 2 0 0 0
           0 1 1 0
           0 0 1 0
           5 0 (-3) 1.

(** The numbers 1 to 16 in reading order, as floats. *)
Definition counting : CMatrix4x4 float :=
  ints of_Z 1 2 3 4
            5 6 7 8
            9 10 11 12
            13 14 15 16.

(** [counting] with another last column. *)
Definition counting' : CMatrix4x4 float :=
  ints of_Z 1 2 3 0
            5 6 7 0
            9 10 11 0
            13 14 15 1.


(** The uniform scaling by plus infinity. *)
Definition unbounded : CMatrix4x4 float :=
  MatrixScaling_uniform (S754_infinity false).

Definition seven_eight_nine : CVector3 float :=
  mkCVector3 (of_Z 7) (of_Z 8) (of_Z 9).
End Inputs.

(** ** The affine part of a matrix *)

Section AffinePart.
Context {F : Type} `{Arith F}.

(** [M] with its last column replaced by (0, 0, 0, 1): the matrix
    [InverseAffine] takes its argument for. *)
Definition affine_part (M : CMatrix4x4 F) : CMatrix4x4 F :=
  mkCMatrix4x4 (e00 M) (e01 M) (e02 M) fzero
               (e10 M) (e11 M) (e12 M) fzero
               (e20 M) (e21 M) (e22 M) fzero
               (e30 M) (e31 M) (e32 M) fone.
End AffinePart.

(** ** The scene: [IndexBuffer/Scene.cpp] *)

Module Scene.

(** *** The cube's orientation, from [UpdateScene] *)

(** The four keys [UpdateScene] asks [KeyHeld] about. *)
Inductive KeyCode : Type := Key_W | Key_S | Key_A | Key_D.

Section Update.
Context {F : Type} `{Arith F}.
Local Open Scope arith_scope.

(** [KeyHeld] comes from [Input.h] and [ToRadians] from [MathHelpers.h],
    neither among the sources: the keyboard is a function of the key, and
    [ToRadians(120)] a given number. *)
Variable KeyHeld : KeyCode -> bool.
Variable ToRadians_120 : F.

(** The four [if] statements on the statics [rotationX] and [rotationY]. *)
Definition update_rotation (frameTime : F) (rotation : F * F) : F * F :=
  let '(rotationX, rotationY) := rotation in
  let rotationX :=
    if KeyHeld Key_W then rotationX + ToRadians_120 * frameTime else rotationX in
  let rotationX :=
    if KeyHeld Key_S then rotationX - ToRadians_120 * frameTime else rotationX in
  let rotationY :=
    if KeyHeld Key_A then rotationY + ToRadians_120 * frameTime else rotationY in
  let rotationY :=
    if KeyHeld Key_D then rotationY - ToRadians_120 * frameTime else rotationY in
  (rotationX, rotationY).

(** [gCubeMatrix = MatrixRotationX(rotationX) * MatrixRotationY(rotationY)]. *)
Definition cube_matrix (rotation : F * F) : CMatrix4x4 F :=
  operator_mul (MatrixRotationX (fst rotation)) (MatrixRotationY (snd rotation)).

(** The cube's matrix after a frame. *)
Definition UpdateScene_cube (frameTime : F) (rotation : F * F) : CMatrix4x4 F :=
  cube_matrix (update_rotation frameTime rotation).
End Update.

(** *** The cube's mesh *)

Import Binary32.

(** The float a decimal literal [n/d] denotes: the nearest one. *)
Definition decimal (n d : Z) : float := SFdiv prec emax (of_Z n) (of_Z d).

(** [struct SimpleVertex { CVector3 position; ColourRGBA colour; }].
    [ColourRGBA.h] is not among the sources; a colour is initialised from
    four floats and is kept as these four. *)
Record SimpleVertex : Type := mkSimpleVertex {
  position : CVector3 float;
  colour : float * float * float * float
}.

Definition gCubeVertices : list SimpleVertex :=
  mkSimpleVertex (mkCVector3 (of_Z (-1)) (of_Z 1) (of_Z (-1)))
                 (of_Z 1, decimal 3 10, decimal 3 10, of_Z 0)
  :: mkSimpleVertex (mkCVector3 (of_Z 1) (of_Z 1) (of_Z (-1)))
                    (of_Z 1, decimal 5 10, decimal 5 10, of_Z 0)
  :: mkSimpleVertex (mkCVector3 (of_Z (-1)) (of_Z (-1)) (of_Z (-1)))
                    (of_Z 1, decimal 6 10, decimal 6 10, of_Z 0)
  :: mkSimpleVertex (mkCVector3 (of_Z 1) (of_Z (-1)) (of_Z (-1)))
                    (of_Z 1, decimal 8 10, decimal 8 10, of_Z 0)
  :: mkSimpleVertex (mkCVector3 (of_Z 1) (of_Z (-1)) (of_Z 1))
                    (of_Z 1, decimal 8 10, decimal 8 10, of_Z 0)
  :: mkSimpleVertex (mkCVector3 (of_Z 1) (of_Z 1) (of_Z 1))
                    (of_Z 1, decimal 8 10, decimal 8 10, of_Z 0)
  :: mkSimpleVertex (mkCVector3 (of_Z (-1)) (of_Z 1) (of_Z 1))
                    (of_Z 1, decimal 8 10, decimal 8 10, of_Z 0)
  :: mkSimpleVertex (mkCVector3 (of_Z (-1)) (of_Z (-1)) (of_Z 1))
                    (of_Z 1, decimal 8 10, decimal 8 10, of_Z 0)
  :: nil.

Definition gCubeNumVertices : nat := length gCubeVertices.

(** The index array, as written: one strip. *)
Definition gCubeIndices : list nat :=
  0 :: 1 :: 2 :: 3 :: 4 :: 1 :: 5 :: 0 :: 6 :: 2 :: 7 :: 4 :: 6 :: 5 :: nil.

Definition gCubeNumIndices : nat := length gCubeIndices.

(** The twelve triangles of the comment above the index array
    (ABC, BCD, CDE, DEB, EBF, BFA, FAG, AGC, GCH, CHE, HEG, EGF). *)
Definition commented_triangles : list (nat * nat * nat) :=
  (0, 1, 2) :: (1, 2, 3) :: (2, 3, 4) :: (3, 4, 1) :: (4, 1, 5) :: (1, 5, 0)
  :: (5, 0, 6) :: (0, 6, 2) :: (6, 2, 7) :: (2, 7, 4) :: (7, 4, 6) :: (4, 6, 5)
  :: nil.

(** The triangles of a strip, the topology [RenderScene] selects: every three
    consecutive indices. *)
Fixpoint strip_triangles (l : list nat) : list (nat * nat * nat) :=
  match l with
  | a :: (b :: c :: _) as rest => (a, b, c) :: strip_triangles rest
  | _ => nil
  end.

(** The six faces of the cube: a coordinate and the value it has there. *)
Inductive axis : Type := AxisX | AxisY | AxisZ.

Definition coordinate (a : axis) (v : CVector3 float) : float :=
  match a with
  | AxisX => x v
  | AxisY => y v
  | AxisZ => z v
  end.

Definition faces : list (axis * Z) :=
  (AxisX, (-1)%Z) :: (AxisX, 1%Z) :: (AxisY, (-1)%Z) :: (AxisY, 1%Z)
  :: (AxisZ, (-1)%Z) :: (AxisZ, 1%Z) :: nil.

(** The vertex an index selects lies on the face. *)
Definition vertex_on (face : axis * Z) (i : nat) : bool :=
  match nth_error gCubeVertices i with
  | Some v => eqb (coordinate (fst face) (position v)) (of_Z (snd face))
  | None => false
  end.

Definition triangle_on (face : axis * Z) (t : nat * nat * nat) : bool :=
  let '(a, b, c) := t in
  vertex_on face a && vertex_on face b && vertex_on face c.

(** The number of triangles of [l] on a face. *)
Definition triangles_on (face : axis * Z) (l : list (nat * nat * nat)) : nat :=
  length (filter (triangle_on face) l).
End Scene.

(** ** More concrete inputs *)

Module MoreInputs.
Import Binary32 Inputs.

(** The scaling by (2, 4, 5), over the reals. *)
Definition stretched : CMatrix4x4 R :=
  ints IZR 2 0 0 0
           0 4 0 0
           0 0 5 0
           0 0 0 1.

(** [sheared] with a last column that is not affine. *)
Definition projective : CMatrix4x4 R :=
  ints IZR 2 0 0 7
           0 1 1 8
           0 0 1 9
           5 0 (-3) 4.

(** A memory with [counting] at address 0 and the identity elsewhere. *)
Definition two_objects : memory :=
  fun p => match p with
           | O => counting
           | _ => MatrixIdentity
           end.

(** The inverse of [sheared], written out. *)
Definition sheared_inverse : CMatrix4x4 R :=
  mkCMatrix4x4 (1 / 2)%R 0%R 0%R 0%R
               0%R 1%R (-1)%R 0%R
               0%R 0%R 1%R 0%R
               (-5 / 2)%R 0%R 3%R 1%R.

(** [counting] with (7, 8, 9) in row 3. *)
Definition counting_moved : CMatrix4x4 float :=
  ints of_Z 1 2 3 4
            5 6 7 8
            9 10 11 12
            7 8 9 16.

(** Row 3 of [counting]. *)
Definition last_row : CVector3 float :=
  mkCVector3 (of_Z 13) (of_Z 14) (of_Z 15).

Definition factors : CVector3 R := mkCVector3 2%R 4%R 5%R.

(** Every key held. *)
Definition all_keys : Scene.KeyCode -> bool := fun _ => true.
End MoreInputs.

(** ** Comparing floats up to a tolerance *)

Module Tolerance.
Import Binary32 Inputs.

(** The tolerance the identities are meant up to on floats: [1e-5f]. *)
Definition tolerance : float := SFdiv prec emax (of_Z 1) (of_Z 100000).

(** [fabs(a - b) <= 1e-5f]; false as soon as a NaN is involved. *)
Definition within_tolerance (a b : float) : bool :=
  SFleb (SFabs (SFsub prec emax a b)) tolerance.

Definition matrix_within_tolerance (A B : CMatrix4x4 float) : bool :=
  all_members (fun f => within_tolerance (get f A) (get f B)).

(** The integer a float is, when it is one. *)
Definition integer_value (a : float) : option Z :=
  match a with
  | S754_zero _ => Some 0%Z
  | S754_finite s m (Zneg k) =>
      if (Zpos m mod 2 ^ Zpos k =? 0)%Z
      then Some (cond_Zopp s (Zpos m / 2 ^ Zpos k))
      else None
  | S754_finite s m e => Some (cond_Zopp s (Zpos m * 2 ^ e))
  | _ => None
  end.

(** The sixteen members in declaration order, as integers. *)
Definition integer_members (M : CMatrix4x4 float) : list (option Z) :=
  map (fun f => integer_value (get f M))
      (E00 :: E01 :: E02 :: E03 :: E10 :: E11 :: E12 :: E13
       :: E20 :: E21 :: E22 :: E23 :: E30 :: E31 :: E32 :: E33 :: nil).

(** An affine matrix of small integers whose 3x3 block has determinant 5:
    its third row is nearly four times the second plus twice the first. *)
Definition nearly_singular_at {F : Type} (num : Z -> F) : CMatrix4x4 F :=
  ints num 265 140 155 0
           (-181) 243 269 0
           (-14) 1009 1117 0
           0 0 0 1.

Definition nearly_singular : CMatrix4x4 float := nearly_singular_at of_Z.
End Tolerance.

(** ** Properties that hold for every arithmetic

    Nothing below uses a law of the scalar operations: the statements hold
    for the reals and, bit for bit, for [float]. *)

Section Generic.
Context {F : Type} `{Arith F}.
Local Open Scope arith_scope.

(** Two matrices are equal when their sixteen members are. *)
Lemma matrix_eq
  (a00 a01 a02 a03 a10 a11 a12 a13 a20 a21 a22 a23 a30 a31 a32 a33
   b00 b01 b02 b03 b10 b11 b12 b13 b20 b21 b22 b23 b30 b31 b32 b33 : F) :
  a00 = b00 -> a01 = b01 -> a02 = b02 -> a03 = b03 ->
  a10 = b10 -> a11 = b11 -> a12 = b12 -> a13 = b13 ->
  a20 = b20 -> a21 = b21 -> a22 = b22 -> a23 = b23 ->
  a30 = b30 -> a31 = b31 -> a32 = b32 -> a33 = b33 ->
  mkCMatrix4x4 a00 a01 a02 a03 a10 a11 a12 a13 a20 a21 a22 a23 a30 a31 a32 a33
  = mkCMatrix4x4 b00 b01 b02 b03 b10 b11 b12 b13 b20 b21 b22 b23 b30 b31 b32 b33.
Proof. intros; subst; reflexivity. Qed.

Lemma member_at_offset (f : field) : member_at (offset f) = Some f.
Proof. destruct f; reflexivity. Qed.

Lemma member_at_inv (i : Z) (f : field) : member_at i = Some f -> i = offset f.
Proof.
  destruct i as [|p|p]; simpl; try discriminate.
  - intros E; injection E as <-; reflexivity.
  - repeat (destruct p as [p|p|]; simpl; try discriminate);
      intros E; injection E as <-; reflexivity.
Qed.

Lemma get_set_same (f : field) (v : F) (M : CMatrix4x4 F) : get f (set f v M) = v.
Proof. destruct M, f; reflexivity. Qed.

Lemma get_set_other (f g : field) (v : F) (M : CMatrix4x4 F) :
  f <> g -> get g (set f v M) = get g M.
Proof. intros Hfg; destruct M, f, g; try reflexivity; contradiction Hfg; reflexivity. Qed.

Lemma wr_same (h : memory) (p : addr) (f : field) (v : F) :
  wr h p f v p = set f v (h p).
Proof. unfold wr; rewrite Nat.eqb_refl; reflexivity. Qed.

Lemma wr_other (h : memory) (p q : addr) (f : field) (v : F) :
  q <> p -> wr h p f v q = h q.
Proof. intros Hq; unfold wr; apply Nat.eqb_neq in Hq; rewrite Hq; reflexivity. Qed.

(** A group of statements writes [*this] only. *)
Ltac row_frame :=
  let Hq := fresh "Hq" in
  intros Hq; apply Nat.eqb_neq in Hq;
  cbv beta zeta delta [inplace_row0 inplace_row1 inplace_row2 inplace_row3 wr];
  rewrite Hq; reflexivity.

Lemma inplace_row0_frame (this m q : addr) (h : memory) :
  q <> this -> inplace_row0 this m h q = h q.
Proof. row_frame. Qed.

Lemma inplace_row1_frame (this m q : addr) (h : memory) :
  q <> this -> inplace_row1 this m h q = h q.
Proof. row_frame. Qed.

Lemma inplace_row2_frame (this m q : addr) (h : memory) :
  q <> this -> inplace_row2 this m h q = h q.
Proof. row_frame. Qed.

Lemma inplace_row3_frame (this m q : addr) (h : memory) :
  q <> this -> inplace_row3 this m h q = h q.
Proof. row_frame. Qed.

(** A group of statements reads both operands as they are when it starts,
    and leaves in [*this] one more row of the product. *)
Ltac row_this h this :=
  cbv beta zeta delta [inplace_row0 inplace_row1 inplace_row2 inplace_row3 rd wr];
  rewrite Nat.eqb_refl;
  destruct (h this); reflexivity.

Lemma inplace_row0_this (this m : addr) (h : memory) :
  inplace_row0 this m h this = with_row_product I0 (h this) (h m).
Proof. row_this h this. Qed.

Lemma inplace_row1_this (this m : addr) (h : memory) :
  inplace_row1 this m h this = with_row_product I1 (h this) (h m).
Proof. row_this h this. Qed.

Lemma inplace_row2_this (this m : addr) (h : memory) :
  inplace_row2 this m h this = with_row_product I2 (h this) (h m).
Proof. row_this h this. Qed.

Lemma inplace_row3_this (this m : addr) (h : memory) :
  inplace_row3 this m h this = with_row_product I3 (h this) (h m).
Proof. row_this h this. Qed.

(** The in-place rows never write outside [*this]. *)
Lemma inplace_rows_frame (this m q : addr) (h : memory) :
  q <> this -> inplace_rows this m h q = h q.
Proof.
  intros Hq; unfold inplace_rows; cbv zeta.
  rewrite (inplace_row3_frame _ _ Hq), (inplace_row2_frame _ _ Hq),
          (inplace_row1_frame _ _ Hq), (inplace_row0_frame _ _ Hq).
  reflexivity.
Qed.

(** On two distinct objects the in-place rows compute the binary product. *)
Lemma inplace_rows_distinct (this m : addr) (h : memory) :
  this <> m -> inplace_rows this m h this = operator_mul (h this) (h m).
Proof.
  intros Hm.
  assert (Hm' : m <> this) by congruence.
  unfold inplace_rows; cbv zeta.
  rewrite inplace_row3_this, (inplace_row2_frame _ _ Hm'),
    (inplace_row1_frame _ _ Hm'), (inplace_row0_frame _ _ Hm').
  rewrite inplace_row2_this, (inplace_row1_frame _ _ Hm'),
    (inplace_row0_frame _ _ Hm').
  rewrite inplace_row1_this, (inplace_row0_frame _ _ Hm').
  rewrite inplace_row0_this.
  destruct (h this), (h m); reflexivity.
Qed.

Lemma operator_mul_assign_frame (this m q : addr) (h : memory) :
  q <> this -> operator_mul_assign this m h q = h q.
Proof.
  intros Hq; unfold operator_mul_assign.
  destruct (Nat.eqb this m).
  - unfold assign; apply Nat.eqb_neq in Hq; rewrite Hq; reflexivity.
  - apply inplace_rows_frame; assumption.
Qed.

(** C2: the binary product has, at row r and column c, the sum over k of
    m1[r][k] * m2[k][c], the four products added in the order k = 0, 1, 2, 3. *)
Theorem operator_mul_entry (m1 m2 : CMatrix4x4 F) (r c : idx) :
  entry (operator_mul m1 m2) r c = sum4 (fun k => entry m1 r k * entry m2 k c).
Proof. destruct r, c; reflexivity. Qed.

(** C3: after [m1 *= m2] the left operand holds the binary product of the two
    operands as they were before the call, whether [m2] is another object or
    [m1] itself; for one object at [p], [p *= p] leaves there the product of
    the old value with itself. *)
Theorem operator_mul_assign_product (this m : addr) (h : memory) :
  operator_mul_assign this m h this = operator_mul (h this) (h m)
  /\ operator_mul_assign this this h this = operator_mul (h this) (h this).
Proof.
  assert (Hself : forall p, operator_mul_assign p p h p = operator_mul (h p) (h p)).
  { intros p; unfold operator_mul_assign; rewrite Nat.eqb_refl.
    unfold assign; rewrite Nat.eqb_refl; reflexivity. }
  split; [|apply Hself].
  destruct (Nat.eq_dec this m) as [<-|Hm]; [apply Hself|].
  unfold operator_mul_assign.
  destruct (Nat.eqb_spec this m) as [E|_]; [contradiction|].
  apply inplace_rows_distinct; assumption.
Qed.

(** C5: whatever the input, the last column of the result of
    [InverseAffine] is (0, 0, 0, 1). *)
Theorem InverseAffine_last_column (m : CMatrix4x4 F) :
  e03 (InverseAffine m) = fzero /\ e13 (InverseAffine m) = fzero
  /\ e23 (InverseAffine m) = fzero /\ e33 (InverseAffine m) = fone.
Proof. repeat split. Qed.

(** C10: two matrices that agree on every member outside the last column
    have the same [InverseAffine]. *)
Theorem InverseAffine_ignores_last_column (m m' : CMatrix4x4 F) :
  (forall f, last_column f = false -> get f m = get f m') ->
  InverseAffine m = InverseAffine m'.
Proof.
  intros Hagree.
  pose proof (Hagree E00 eq_refl); pose proof (Hagree E01 eq_refl);
  pose proof (Hagree E02 eq_refl); pose proof (Hagree E10 eq_refl);
  pose proof (Hagree E11 eq_refl); pose proof (Hagree E12 eq_refl);
  pose proof (Hagree E20 eq_refl); pose proof (Hagree E21 eq_refl);
  pose proof (Hagree E22 eq_refl); pose proof (Hagree E30 eq_refl);
  pose proof (Hagree E31 eq_refl); pose proof (Hagree E32 eq_refl).
  clear Hagree; destruct m, m'; simpl in *; subst; reflexivity.
Qed.
End Generic.

Section RowsProperties.
Context {F : Type}.

(** C7: for a row index in 0..3, [SetRow] then [GetRow] of that row gives the
    vector back; the fourth element of the row and every other element
    outside the three written keep their values. *)
Theorem SetRow_GetRow (M : CMatrix4x4 F) (r : Z) (v : CVector3 F) :
  (0 <= r <= 3)%Z ->
  exists M', SetRow M r v = Some M'
    /\ GetRow M' r = Some v
    /\ load M' (r * 4 + 3) = load M (r * 4 + 3)
    /\ (forall i, (i < r * 4 \/ r * 4 + 2 < i)%Z -> load M' i = load M i).
Proof.
  intros Hr.
  assert (Hcases : r = 0%Z \/ r = 1%Z \/ r = 2%Z \/ r = 3%Z) by lia.
  destruct M, v.
  destruct Hcases as [-> | [-> | [-> | ->]]];
    (eexists; split; [reflexivity|]; split; [reflexivity|]; split; [reflexivity|];
     intros i Hi; unfold load;
     destruct (member_at i) as [f|] eqn:E; [|reflexivity];
     apply member_at_inv in E; subst i;
     destruct f; simpl in Hi |- *; solve [reflexivity | lia]).
Qed.
End RowsProperties.

(** ** Exact arithmetic *)

Section Exact.
Local Open Scope R_scope.

(** The code expands along row 0; in exact arithmetic that is the
    determinant. *)
Lemma InverseAffine_det_exact (M : CMatrix4x4 R) : InverseAffine_det M = det3x3 M.
Proof. destruct M; unfold InverseAffine_det, det3x3; simpl; ring. Qed.

(** A side condition [c <> 0] where [c] is the polynomial of [H : d <> 0]
    written another way. *)
Ltac same_polynomial H :=
  let Hc := fresh "Hc" in
  intros Hc; apply H;
  match type of Hc with ?c = _ => transitivity c; [ring | exact Hc] end.

(** A side condition [c <> 0] where [c] is the square of the polynomial of
    [H : d <> 0]. *)
Ltac square_polynomial H :=
  let Hc := fresh "Hc" in
  intros Hc; apply (Rmult_integral_contrapositive_currified _ _ H H);
  match type of Hc with ?c = _ => transitivity c; [ring | exact Hc] end.

(** The inverse of a 3x3 block has the inverse determinant. *)
Lemma det3x3_InverseAffine (M : CMatrix4x4 R) :
  det3x3 M <> 0 -> det3x3 (InverseAffine M) = / det3x3 M.
Proof.
  destruct M; unfold det3x3, InverseAffine; simpl; intros Hdet.
  field; same_polynomial Hdet.
Qed.

Lemma InverseAffine_affine (M : CMatrix4x4 R) : affine (InverseAffine M).
Proof. repeat split. Qed.

(** C1: in exact arithmetic, an affine matrix with an invertible 3x3 block
    times its [InverseAffine] is the identity. *)
Theorem operator_mul_InverseAffine (M : CMatrix4x4 R) :
  affine M -> det3x3 M <> 0 ->
  operator_mul M (InverseAffine M) = MatrixIdentity.
Proof.
  destruct M; unfold affine, det3x3, operator_mul, InverseAffine, MatrixIdentity; simpl.
  intros (-> & -> & -> & ->) Hdet.
  apply matrix_eq; field; same_polynomial Hdet.
Qed.

(** C4: in exact arithmetic, [InverseAffine] applied twice to an affine matrix
    with an invertible 3x3 block gives the matrix back. *)
Theorem InverseAffine_involutive (M : CMatrix4x4 R) :
  affine M -> det3x3 M <> 0 ->
  InverseAffine (InverseAffine M) = M.
Proof.
  destruct M; unfold affine, det3x3, InverseAffine; simpl.
  intros (-> & -> & -> & ->) Hdet.
  apply matrix_eq; try reflexivity;
    (field; split; [same_polynomial Hdet | square_polynomial Hdet]).
Qed.

(** C8: in exact arithmetic the identity matrix is neutral for the product,
    on the left and on the right. *)
Theorem operator_mul_identity (M : CMatrix4x4 R) :
  operator_mul MatrixIdentity M = M /\ operator_mul M MatrixIdentity = M.
Proof.
  destruct M; unfold operator_mul, MatrixIdentity; simpl.
  split; apply matrix_eq; ring.
Qed.

(** C9: [MatrixRotationX a] has the rows (1,0,0,0), (0,cos a,sin a,0),
    (0,-sin a,cos a,0), (0,0,0,1), so sin a at e12 and -sin a at e21; at the
    angle 0 it is the identity. *)
Theorem MatrixRotationX_rows :
  (forall a : R,
     MatrixRotationX a = mkCMatrix4x4 1 0 0 0
                                      0 (cos a) (sin a) 0
                                      0 (- sin a) (cos a) 0
                                      0 0 0 1)
  /\ (forall a : R, e12 (MatrixRotationX a) = sin a
                    /\ e21 (MatrixRotationX a) = - sin a)
  /\ MatrixRotationX 0 = MatrixIdentity.
Proof.
  split; [reflexivity|]; split; [split; reflexivity|].
  unfold MatrixRotationX, MatrixIdentity; simpl.
  rewrite sin_0, cos_0, Ropp_0; reflexivity.
Qed.
End Exact.

(** ** Single precision *)

Section Unfolding.
Context {F : Type} `{Arith F}.
Local Open Scope arith_scope.

(** [InverseAffine] in terms of the reciprocal of its local [det]. *)
Lemma InverseAffine_unfold (m : CMatrix4x4 F) :
  InverseAffine m =
  let invDet := fone / InverseAffine_det m in
  let o00 := invDet * (e11 m * e22 m - e12 m * e21 m) in
  let o10 := invDet * (e12 m * e20 m - e10 m * e22 m) in
  let o20 := invDet * (e10 m * e21 m - e11 m * e20 m) in
  let o01 := invDet * (e21 m * e02 m - e22 m * e01 m) in
  let o11 := invDet * (e22 m * e00 m - e20 m * e02 m) in
  let o21 := invDet * (e20 m * e01 m - e21 m * e00 m) in
  let o02 := invDet * (e01 m * e12 m - e02 m * e11 m) in
  let o12 := invDet * (e02 m * e10 m - e00 m * e12 m) in
  let o22 := invDet * (e00 m * e11 m - e01 m * e10 m) in
  {| e00 := o00; e01 := o01; e02 := o02; e03 := fzero;
     e10 := o10; e11 := o11; e12 := o12; e13 := fzero;
     e20 := o20; e21 := o21; e22 := o22; e23 := fzero;
     e30 := - e30 m * o00 - e31 m * o10 - e32 m * o20;
     e31 := - e30 m * o01 - e31 m * o11 - e32 m * o21;
     e32 := - e30 m * o02 - e31 m * o12 - e32 m * o22;
     e33 := fone |}.
Proof. reflexivity. Qed.
End Unfolding.

Module Float.
Import Binary32.

Section Laws.
Variables sinf cosf : float -> float.
#[local] Instance float_arith : Arith float := arith sinf cosf.
Local Open Scope arith_scope.






(** *** The identity matrix on floats

    Multiplying by [1.0f] is exact and [0.0f] times a finite number is a
    zero, so the identity laws hold on finite matrices for the comparison
    [==], which does not tell the two zeros apart. *)

Lemma digits_scaled (m : positive) :
  Zpos (digits2_pos (8388608 * m)) = (Zpos (digits2_pos m) + 23)%Z.
Proof. cbn [Pos.mul digits2_pos]; lia. Qed.

Lemma shr_scaled (m : positive) :
  iter_pos shr_1 23 {| shr_m := Zpos (8388608 * m); shr_r := false; shr_s := false |}
  = {| shr_m := Zpos m; shr_r := false; shr_s := false |}.
Proof. reflexivity. Qed.

(** Rounding [m * 2^23] at exponent [e - 23] gives [m] at exponent [e]. *)
Lemma round_scaled (s : bool) (m : positive) (e : Z) :
  bounded prec emax m e = true ->
  binary_round_aux prec emax s (Zpos (8388608 * m)) (-23 + e) loc_Exact
  = S754_finite s m e.
Proof.
  unfold bounded, canonical_mantissa; intros Hb.
  apply andb_true_iff in Hb; destruct Hb as [Hc He].
  apply Z.eqb_eq in Hc.
  unfold binary_round_aux.
  assert (H1 : shr_fexp prec emax (Zpos (8388608 * m)) (-23 + e) loc_Exact
               = ({| shr_m := Zpos m; shr_r := false; shr_s := false |}, e)).
  { unfold shr_fexp, Zdigits2.
    rewrite digits_scaled.
    replace (Z.pos (digits2_pos m) + 23 + (-23 + e))%Z
      with (Z.pos (digits2_pos m) + e)%Z by lia.
    rewrite Hc.
    replace (e - (-23 + e))%Z with 23%Z by lia.
    unfold shr, shr_record_of_loc; rewrite shr_scaled; f_equal; lia. }
  rewrite H1; cbn [shr_m loc_of_shr_record round_nearest_even].
  assert (H2 : shr_fexp prec emax (Zpos m) e loc_Exact
               = ({| shr_m := Zpos m; shr_r := false; shr_s := false |}, e)).
  { unfold shr_fexp, Zdigits2; rewrite Hc, Z.sub_diag; reflexivity. }
  rewrite H2; cbn [shr_m].
  rewrite He; reflexivity.
Qed.

Lemma mul_one_l (a : float) : finite a = true -> fone * a = a.
Proof.
  destruct a as [s | s | | s m e]; try discriminate; intros Ha.
  - reflexivity.
  - exact (round_scaled s m e Ha).
Qed.

Lemma mul_one_r (a : float) : finite a = true -> a * fone = a.
Proof.
  destruct a as [s | s | | s m e]; try discriminate; intros Ha.
  - destruct s; reflexivity.
  - change (binary_round_aux prec emax (xorb s false) (Zpos (m * 8388608)) (e + -23) loc_Exact
            = S754_finite s m e).
    rewrite xorb_false_r, Pos.mul_comm, Z.add_comm.
    exact (round_scaled s m e Ha).
Qed.

Lemma mul_zero_l (a : float) : finite a = true -> is_zero (fzero * a) = true.
Proof. destruct a; try discriminate; reflexivity. Qed.

Lemma mul_zero_r (a : float) : finite a = true -> is_zero (a * fzero) = true.
Proof. destruct a; try discriminate; reflexivity. Qed.

Lemma add_zero_zero (a b : float) :
  is_zero a = true -> is_zero b = true -> is_zero (a + b) = true.
Proof. destruct a as [[|]| | |], b as [[|]| | |]; try discriminate; reflexivity. Qed.

Lemma same_value_refl (a : float) : same_value a a.
Proof. destruct a; reflexivity. Qed.

Lemma add_zero_r (a' a b : float) :
  finite a = true -> same_value a' a -> is_zero b = true -> same_value (a' + b) a.
Proof.
  destruct a as [s | s | | s m e]; try discriminate; intros _ Ha Hb.
  - exact (add_zero_zero _ _ Ha Hb).
  - simpl in Ha; subst a'; destruct b; try discriminate; reflexivity.
Qed.

Lemma add_zero_l (a' a b : float) :
  finite a = true -> same_value a' a -> is_zero b = true -> same_value (b + a') a.
Proof.
  destruct a as [s | s | | s m e]; try discriminate; intros _ Ha Hb.
  - exact (add_zero_zero _ _ Hb Ha).
  - simpl in Ha; subst a'; destruct b; try discriminate; reflexivity.
Qed.

Lemma same_value_eqb (a' a : float) :
  finite a = true -> same_value a' a -> eqb a' a = true.
Proof.
  destruct a as [s | s | | s m e]; try discriminate; intros _ Ha.
  - destruct a'; try discriminate; reflexivity.
  - simpl in Ha; subst a'; unfold eqb, SFeqb, SFcompare.
    rewrite Z.compare_refl, Pos.compare_cont_refl.
    destruct s; reflexivity.
Qed.

Ltac zero_sum :=
  repeat first [ apply add_zero_zero
               | apply mul_zero_l; assumption
               | apply mul_zero_r; assumption ].

Ltac one_term :=
  first [ rewrite mul_one_l by assumption; apply same_value_refl
        | rewrite mul_one_r by assumption; apply same_value_refl
        | apply add_zero_r; [assumption | one_term | solve [zero_sum]]
        | apply add_zero_l; [assumption | one_term | solve [zero_sum]] ].

(** On floats, the identity matrix is neutral on both sides, up to [==],
    for every matrix of finite numbers. *)
Lemma operator_mul_identity_float (M : CMatrix4x4 float) :
  all_finite M = true ->
  matrix_eqb (operator_mul MatrixIdentity M) M = true
  /\ matrix_eqb (operator_mul M MatrixIdentity) M = true.
Proof.
  destruct M; unfold all_finite, matrix_eqb, all_members.
  cbn [forallb get e00 e01 e02 e03 e10 e11 e12 e13 e20 e21 e22 e23 e30 e31 e32 e33].
  intros Hfin.
  repeat (apply andb_true_iff in Hfin; destruct Hfin as [? Hfin]).
  unfold operator_mul, MatrixIdentity.
  cbn [e00 e01 e02 e03 e10 e11 e12 e13 e20 e21 e22 e23 e30 e31 e32 e33].
  split; repeat (apply andb_true_iff; split); try reflexivity;
    (apply same_value_eqb; [assumption | one_term]).
Qed.

(** [MatrixRotationX(0.0f)] once [std::sin(0.0f)] is [0.0f] and
    [std::cos(0.0f)] is [1.0f]: the identity for [==], with a negative zero
    at e21. *)
Lemma MatrixRotationX_zero_float :
  sinf fzero = fzero -> cosf fzero = fone ->
  matrix_eqb (MatrixRotationX fzero) MatrixIdentity = true
  /\ e21 (MatrixRotationX fzero) = S754_zero true.
Proof.
  intros Hsin Hcos; unfold MatrixRotationX.
  change (fsin fzero) with (sinf fzero); change (fcos fzero) with (cosf fzero).
  cbv zeta; rewrite Hsin, Hcos; split; reflexivity.
Qed.
End Laws.
End Float.

(** ** The theorems at concrete inputs *)

Module Examples.
Import Binary32 Inputs.

Lemma sheared_affine : affine sheared.
Proof. unfold affine, sheared, ints; simpl; repeat split; reflexivity. Defined.

Lemma sheared_det : det3x3 sheared <> 0%R.
Proof. unfold det3x3, sheared, ints; simpl; lra. Defined.

Lemma operator_mul_InverseAffine_witness :
  affine sheared /\ det3x3 sheared <> 0%R
  /\ operator_mul sheared (InverseAffine sheared) = MatrixIdentity.
Proof.
  split; [exact sheared_affine|]; split; [exact sheared_det|].
  exact (operator_mul_InverseAffine sheared_affine sheared_det).
Defined.

Lemma InverseAffine_involutive_witness :
  affine sheared /\ det3x3 sheared <> 0%R
  /\ InverseAffine (InverseAffine sheared) = sheared.
Proof.
  split; [exact sheared_affine|]; split; [exact sheared_det|].
  exact (InverseAffine_involutive sheared_affine sheared_det).
Defined.


Lemma SetRow_GetRow_witness :
  (0 <= 3 <= 3)%Z
  /\ exists M', SetRow counting 3 seven_eight_nine = Some M'
       /\ GetRow M' 3 = Some seven_eight_nine
       /\ load M' (3 * 4 + 3) = load counting (3 * 4 + 3)
       /\ (forall i, (i < 3 * 4 \/ 3 * 4 + 2 < i)%Z -> load M' i = load counting i).
Proof.
  split; [lia|]; apply (SetRow_GetRow counting seven_eight_nine (r := 3)); lia.
Defined.

Lemma counting_agree :
  forall f, last_column f = false -> get f counting = get f counting'.
Proof.
  intros f; destruct f; simpl; intros Hf; solve [reflexivity | discriminate Hf].
Defined.

Lemma InverseAffine_ignores_last_column_witness :
  (forall f, last_column f = false -> get f counting = get f counting')
  /\ e03 counting <> e03 counting'
  /\ InverseAffine counting = InverseAffine counting'.
Proof.
  split; [exact counting_agree|]; split; [discriminate|].
  exact (InverseAffine_ignores_last_column counting counting' counting_agree).
Defined.

(** The scene's camera: [InverseAffine(MatrixTranslation(CVector3(0, 0, -5.0f)))]
    is, bit for bit, the translation by (0, 0, 5). *)
Example scene_view_matrix :
  InverseAffine (MatrixTranslation (mkCVector3 (of_Z 0) (of_Z 0) (of_Z (-5))))
  = MatrixTranslation (mkCVector3 (of_Z 0) (of_Z 0) (of_Z 5)).
Proof. vm_compute; reflexivity. Qed.

(** The translation by (5, 0, 0) times its [InverseAffine], on floats. *)
Example translation_times_inverse :
  let t := MatrixTranslation (mkCVector3 (of_Z 5) (of_Z 0) (of_Z 0)) in
  operator_mul t (InverseAffine t) = MatrixIdentity.
Proof. vm_compute; reflexivity. Qed.

(** Why [operator*=] tests [this == &m]: run on one object, the in-place rows
    overwrite row 0 before rows 1 to 3 read it as the right operand, and the
    result is not the square. *)
Example inplace_rows_aliased :
  let h : memory := fun _ => counting in
  e00 (inplace_rows 0 0 h 0%nat) = e00 (operator_mul counting counting)
  /\ e10 (inplace_rows 0 0 h 0%nat) = of_Z 647
  /\ e10 (operator_mul counting counting) = of_Z 202
  /\ operator_mul_assign 0 0 h 0%nat = operator_mul counting counting.
Proof. vm_compute; repeat split. Qed.

(** A row index outside 0..3 takes [SetRow] and [GetRow] out of the object. *)
Example SetRow_out_of_range :
  SetRow counting 4 seven_eight_nine = None
  /\ GetRow counting (-1) = None.
Proof. split; reflexivity. Qed.

(** The finiteness asked by [operator_mul_identity_float] is needed: on floats
    [0 * inf] is NaN, and the identity times a matrix with an infinite member
    has NaN where that matrix has zeros. *)
Example identity_times_unbounded :
  all_finite unbounded = false
  /\ e01 unbounded = S754_zero false
  /\ e01 (operator_mul MatrixIdentity unbounded) = S754_nan
  /\ matrix_eqb (operator_mul MatrixIdentity unbounded) unbounded = false.
Proof. vm_compute; repeat split. Qed.
End Examples.

(** ** Further properties: the product and the inverse in exact arithmetic *)

Section ExactAlgebra.
Local Open Scope R_scope.

Ltac nonzero_as H :=
  let Hc := fresh "Hc" in
  intros Hc; apply H;
  match type of Hc with ?c = _ => transitivity c; [ring | exact Hc] end.

Ltac nonzero_square H :=
  let Hc := fresh "Hc" in
  intros Hc; apply (Rmult_integral_contrapositive_currified _ _ H H);
  match type of Hc with ?c = _ => transitivity c; [ring | exact Hc] end.

Ltac nonzero_product HA HB :=
  let Hc := fresh "Hc" in
  intros Hc; apply (Rmult_integral_contrapositive_currified _ _ HA HB);
  match type of Hc with ?c = _ => transitivity c; [ring | exact Hc] end.

Lemma mul_assoc_exact (A B C : CMatrix4x4 R) :
  operator_mul (operator_mul A B) C = operator_mul A (operator_mul B C).
Proof.
  destruct A, B, C; unfold operator_mul; simpl.
  apply matrix_eq; ring.
Qed.

Lemma mul_identity_exact (M : CMatrix4x4 R) :
  operator_mul MatrixIdentity M = M /\ operator_mul M MatrixIdentity = M.
Proof.
  destruct M; unfold operator_mul, MatrixIdentity; simpl.
  split; apply matrix_eq; ring.
Qed.

Lemma inverse_l_exact (M : CMatrix4x4 R) :
  det3x3 M <> 0 ->
  operator_mul (InverseAffine M) (affine_part M) = MatrixIdentity.
Proof.
  destruct M; unfold det3x3, operator_mul, InverseAffine, MatrixIdentity, affine_part; simpl.
  intros Hdet.
  apply matrix_eq; field; nonzero_as Hdet.
Qed.

Lemma inverse_r_exact (M : CMatrix4x4 R) :
  det3x3 M <> 0 ->
  operator_mul (affine_part M) (InverseAffine M) = MatrixIdentity.
Proof.
  destruct M; unfold det3x3, operator_mul, InverseAffine, MatrixIdentity, affine_part; simpl.
  intros Hdet.
  apply matrix_eq; field; nonzero_as Hdet.
Qed.

Lemma affine_part_fixed (M : CMatrix4x4 R) : affine M -> affine_part M = M.
Proof.
  destruct M; unfold affine, affine_part; simpl.
  intros (-> & -> & -> & ->); reflexivity.
Qed.

Lemma affine_mul_exact (A B : CMatrix4x4 R) :
  affine A -> affine B -> affine (operator_mul A B).
Proof.
  destruct A, B; unfold affine, operator_mul; simpl.
  intros (-> & -> & -> & ->) (-> & -> & -> & ->).
  repeat split; ring.
Qed.

Lemma det_mul_exact (A B : CMatrix4x4 R) :
  affine A -> det3x3 (operator_mul A B) = det3x3 A * det3x3 B.
Proof.
  destruct A, B; unfold affine, det3x3, operator_mul; simpl.
  intros (-> & -> & -> & _); ring.
Qed.

Lemma inverse_product_exact (A B : CMatrix4x4 R) :
  affine A -> affine B -> det3x3 A <> 0 -> det3x3 B <> 0 ->
  InverseAffine (operator_mul A B) = operator_mul (InverseAffine B) (InverseAffine A).
Proof.
  destruct A, B; unfold affine, det3x3, operator_mul, InverseAffine; simpl.
  intros (-> & -> & -> & ->) (-> & -> & -> & ->) HA HB.
  apply matrix_eq; try ring;
    (field; split; [nonzero_as HA | split; [nonzero_as HB | nonzero_product HA HB]]).
Qed.

(** X1: in exact arithmetic the matrix product is associative. *)
Theorem operator_mul_assoc (A B C : CMatrix4x4 R) :
  operator_mul (operator_mul A B) C = operator_mul A (operator_mul B C).
Proof. exact (mul_assoc_exact A B C). Qed.

(** X2: in exact arithmetic, for any matrix with an invertible 3x3 block,
    affine or not, [InverseAffine] is the inverse, on both sides, of the
    matrix with its last column replaced by (0, 0, 0, 1). *)
Theorem InverseAffine_two_sided (M : CMatrix4x4 R) :
  det3x3 M <> 0 ->
  operator_mul (InverseAffine M) (affine_part M) = MatrixIdentity
  /\ operator_mul (affine_part M) (InverseAffine M) = MatrixIdentity.
Proof.
  intros Hdet; split; [exact (inverse_l_exact Hdet) | exact (inverse_r_exact Hdet)].
Qed.

(** X3: in exact arithmetic, a matrix that multiplies an affine matrix with
    an invertible 3x3 block to the identity, on either side, is its
    [InverseAffine]. *)
Theorem InverseAffine_unique (A B : CMatrix4x4 R) :
  affine A -> det3x3 A <> 0 ->
  operator_mul A B = MatrixIdentity \/ operator_mul B A = MatrixIdentity ->
  B = InverseAffine A.
Proof.
  intros HA Hdet [HAB | HBA].
  - rewrite <- (proj1 (mul_identity_exact B)).
    rewrite <- (inverse_l_exact Hdet), (affine_part_fixed HA).
    rewrite mul_assoc_exact, HAB.
    apply (proj2 (mul_identity_exact _)).
  - rewrite <- (proj2 (mul_identity_exact B)).
    rewrite <- (inverse_r_exact Hdet), (affine_part_fixed HA).
    rewrite <- mul_assoc_exact, HBA.
    apply (proj1 (mul_identity_exact _)).
Qed.

(** X4: in exact arithmetic the product of two affine matrices is affine,
    and the determinant of its 3x3 block is the product of the two
    determinants. *)
Theorem affine_product (A B : CMatrix4x4 R) :
  affine A -> affine B ->
  affine (operator_mul A B)
  /\ det3x3 (operator_mul A B) = det3x3 A * det3x3 B.
Proof.
  intros HA HB; split; [exact (affine_mul_exact HA HB) | exact (det_mul_exact B HA)].
Qed.

(** X5: in exact arithmetic the [InverseAffine] of a product of affine
    matrices with invertible 3x3 blocks is the product of the inverses in
    the opposite order. *)
Theorem InverseAffine_product (A B : CMatrix4x4 R) :
  affine A -> affine B -> det3x3 A <> 0 -> det3x3 B <> 0 ->
  InverseAffine (operator_mul A B) = operator_mul (InverseAffine B) (InverseAffine A).
Proof. exact (@inverse_product_exact A B). Qed.

(** X6: in exact arithmetic, for any matrix with an invertible 3x3 block,
    [InverseAffine] applied twice gives the matrix with its last column
    replaced by (0, 0, 0, 1), and the 3x3 block of the inverse has the
    inverse determinant, which is not zero. *)
Theorem InverseAffine_twice (M : CMatrix4x4 R) :
  det3x3 M <> 0 ->
  InverseAffine (InverseAffine M) = affine_part M
  /\ det3x3 (InverseAffine M) = / det3x3 M
  /\ det3x3 (InverseAffine M) <> 0.
Proof.
  intros Hdet.
  assert (Hinv : det3x3 (InverseAffine M) = / det3x3 M).
  { revert Hdet; destruct M; unfold det3x3, InverseAffine; simpl; intros Hdet.
    field; nonzero_as Hdet. }
  split; [|split; [exact Hinv | rewrite Hinv; apply Rinv_neq_0_compat; exact Hdet]].
  revert Hdet; clear Hinv.
  destruct M; unfold det3x3, InverseAffine, affine_part; simpl; intros Hdet.
  apply matrix_eq; try reflexivity;
    (field; split; [nonzero_as Hdet | nonzero_square Hdet]).
Qed.
End ExactAlgebra.

(** ** Further properties: the constructors in exact arithmetic *)

Section ExactConstructors.
Local Open Scope R_scope.

Lemma rotation_x_add (a b : R) :
  operator_mul (MatrixRotationX a) (MatrixRotationX b) = MatrixRotationX (a + b).
Proof.
  unfold operator_mul, MatrixRotationX; simpl.
  rewrite sin_plus, cos_plus.
  apply matrix_eq; ring.
Qed.

Lemma rotation_y_add (a b : R) :
  operator_mul (MatrixRotationY a) (MatrixRotationY b) = MatrixRotationY (a + b).
Proof.
  unfold operator_mul, MatrixRotationY; simpl.
  rewrite sin_plus, cos_plus.
  apply matrix_eq; ring.
Qed.

Lemma rotation_z_add (a b : R) :
  operator_mul (MatrixRotationZ a) (MatrixRotationZ b) = MatrixRotationZ (a + b).
Proof.
  unfold operator_mul, MatrixRotationZ; simpl.
  rewrite sin_plus, cos_plus.
  apply matrix_eq; ring.
Qed.

Lemma unit_circle (a : R) : sin a * sin a + cos a * cos a = 1.
Proof. exact (sin2_cos2 a). Qed.

Lemma rotation_affine (a : R) :
  affine (MatrixRotationX a) /\ affine (MatrixRotationY a)
  /\ affine (MatrixRotationZ a).
Proof. repeat split. Qed.

Lemma rotation_det (a : R) :
  det3x3 (MatrixRotationX a) = 1 /\ det3x3 (MatrixRotationY a) = 1
  /\ det3x3 (MatrixRotationZ a) = 1.
Proof.
  pose proof (unit_circle a) as Hc.
  unfold det3x3, MatrixRotationX, MatrixRotationY, MatrixRotationZ; simpl.
  split; [|split];
    (transitivity (sin a * sin a + cos a * cos a); [ring | exact Hc]).
Qed.

(** The inverse of a rotation, once its determinant is known to be 1. *)
Ltac rotation_inverse a :=
  let Hc := fresh "Hc" in
  let c := fresh "c" in
  let s := fresh "s" in
  pose proof (unit_circle a) as Hc;
  unfold InverseAffine, MatrixRotationX, MatrixRotationY, MatrixRotationZ; simpl;
  rewrite sin_neg, cos_neg;
  generalize dependent (sin a); generalize dependent (cos a); intros c s Hc;
  match goal with |- context [1 / ?d] =>
    replace d with 1 by (transitivity (s * s + c * c); [symmetry; exact Hc | ring])
  end;
  apply matrix_eq; try reflexivity;
  first [field | transitivity (s * s + c * c); [field | exact Hc]].

Lemma rotation_x_inverse (a : R) :
  InverseAffine (MatrixRotationX a) = MatrixRotationX (- a).
Proof. rotation_inverse a. Qed.

Lemma rotation_y_inverse (a : R) :
  InverseAffine (MatrixRotationY a) = MatrixRotationY (- a).
Proof. rotation_inverse a. Qed.

Lemma rotation_z_inverse (a : R) :
  InverseAffine (MatrixRotationZ a) = MatrixRotationZ (- a).
Proof. rotation_inverse a. Qed.

(** X7: in exact arithmetic translations compose by adding their vectors,
    and the translation by the zero vector is the identity. *)
Theorem MatrixTranslation_compose (a b : CVector3 R) :
  operator_mul (MatrixTranslation a) (MatrixTranslation b)
  = MatrixTranslation (mkCVector3 (x a + x b) (y a + y b) (z a + z b))
  /\ MatrixTranslation (mkCVector3 0 0 0) = MatrixIdentity.
Proof.
  split; [|reflexivity].
  destruct a, b; unfold operator_mul, MatrixTranslation; simpl.
  apply matrix_eq; ring.
Qed.

(** X8: in exact arithmetic the [InverseAffine] of the translation by a
    vector is the translation by the opposite vector. *)
Theorem InverseAffine_MatrixTranslation (t : CVector3 R) :
  InverseAffine (MatrixTranslation t)
  = MatrixTranslation (mkCVector3 (- x t) (- y t) (- z t)).
Proof.
  destruct t; unfold InverseAffine, MatrixTranslation; simpl.
  apply matrix_eq; try reflexivity; field; lra.
Qed.

(** X9: in exact arithmetic scalings compose by multiplying their factors
    axis by axis; the overload that takes one number is the other one at
    the vector with that number three times. *)
Theorem MatrixScaling_compose (s t : CVector3 R) (u : R) :
  operator_mul (MatrixScaling s) (MatrixScaling t)
  = MatrixScaling (mkCVector3 (x s * x t) (y s * y t) (z s * z t))
  /\ MatrixScaling_uniform u = MatrixScaling (mkCVector3 u u u).
Proof.
  split; [|reflexivity].
  destruct s, t; unfold operator_mul, MatrixScaling; simpl.
  apply matrix_eq; ring.
Qed.

(** X10: in exact arithmetic the 3x3 determinant of a scaling is the product
    of its three factors, and when none is zero its [InverseAffine] is the
    scaling by the three reciprocals. *)
Theorem InverseAffine_MatrixScaling (s : CVector3 R) :
  x s <> 0 -> y s <> 0 -> z s <> 0 ->
  det3x3 (MatrixScaling s) = x s * y s * z s
  /\ InverseAffine (MatrixScaling s)
     = MatrixScaling (mkCVector3 (/ x s) (/ y s) (/ z s)).
Proof.
  destruct s as [sx sy sz]; unfold det3x3, InverseAffine, MatrixScaling; simpl.
  intros Hx Hy Hz; split; [ring|].
  apply matrix_eq; try reflexivity; field; repeat split; assumption.
Qed.

(** X11: in exact arithmetic two rotations about the same axis compose by
    adding their angles, for each of the three axes, and the rotations by
    the angle 0 about the Y and Z axes are the identity. *)
Theorem rotations_add (a b : R) :
  operator_mul (MatrixRotationX a) (MatrixRotationX b) = MatrixRotationX (a + b)
  /\ operator_mul (MatrixRotationY a) (MatrixRotationY b) = MatrixRotationY (a + b)
  /\ operator_mul (MatrixRotationZ a) (MatrixRotationZ b) = MatrixRotationZ (a + b)
  /\ MatrixRotationY 0 = MatrixIdentity
  /\ MatrixRotationZ 0 = MatrixIdentity.
Proof.
  split; [exact (rotation_x_add a b)|].
  split; [exact (rotation_y_add a b)|].
  split; [exact (rotation_z_add a b)|].
  unfold MatrixRotationY, MatrixRotationZ, MatrixIdentity; simpl.
  rewrite sin_0, cos_0, Ropp_0; split; reflexivity.
Qed.

(** X12: in exact arithmetic the 3x3 block of every rotation matrix has
    determinant 1, and the [InverseAffine] of the rotation by an angle is
    the rotation by the opposite angle about the same axis. *)
Theorem InverseAffine_rotation (a : R) :
  (det3x3 (MatrixRotationX a) = 1
   /\ InverseAffine (MatrixRotationX a) = MatrixRotationX (- a))
  /\ (det3x3 (MatrixRotationY a) = 1
      /\ InverseAffine (MatrixRotationY a) = MatrixRotationY (- a))
  /\ (det3x3 (MatrixRotationZ a) = 1
      /\ InverseAffine (MatrixRotationZ a) = MatrixRotationZ (- a)).
Proof.
  destruct (rotation_det a) as (Hx & Hy & Hz).
  split; [split; [exact Hx | exact (rotation_x_inverse a)]|].
  split; [split; [exact Hy | exact (rotation_y_inverse a)]|].
  split; [exact Hz | exact (rotation_z_inverse a)].
Qed.

(** X13: in exact arithmetic, whatever the keys, the frame time and the
    angles before, the cube's matrix after [UpdateScene] is affine with a
    3x3 block of determinant 1, and its [InverseAffine] is the rotation
    about Y by the opposite angle times the rotation about X by the opposite
    angle. *)
Theorem UpdateScene_cube_rigid
  (KeyHeld : Scene.KeyCode -> bool) (speed frameTime : R) (rotation : R * R) :
  let M := Scene.UpdateScene_cube KeyHeld speed frameTime rotation in
  let after := Scene.update_rotation KeyHeld speed frameTime rotation in
  affine M
  /\ det3x3 M = 1
  /\ InverseAffine M
     = operator_mul (MatrixRotationY (- snd after)) (MatrixRotationX (- fst after)).
Proof.
  unfold Scene.UpdateScene_cube, Scene.cube_matrix.
  generalize (Scene.update_rotation KeyHeld speed frameTime rotation).
  intros [rx ry]; cbn [fst snd].
  destruct (rotation_affine rx) as (Ax & _ & _).
  destruct (rotation_affine ry) as (_ & Ay & _).
  destruct (rotation_det rx) as (Dx & _ & _).
  destruct (rotation_det ry) as (_ & Dy & _).
  split; [exact (affine_mul_exact Ax Ay)|].
  split.
  - rewrite (det_mul_exact _ Ax), Dx, Dy; ring.
  - rewrite inverse_product_exact;
      [ rewrite rotation_x_inverse, rotation_y_inverse; reflexivity
      | exact Ax | exact Ay
      | rewrite Dx; exact R1_neq_R0 | rewrite Dy; exact R1_neq_R0 ].
Qed.

(** X14: in exact arithmetic, when W and S are both held or both released,
    and so are A and D, [UpdateScene] leaves the two angles as they were. *)
Theorem opposing_keys_cancel
  (KeyHeld : Scene.KeyCode -> bool) (speed frameTime : R) (rotation : R * R) :
  KeyHeld Scene.Key_W = KeyHeld Scene.Key_S ->
  KeyHeld Scene.Key_A = KeyHeld Scene.Key_D ->
  Scene.update_rotation KeyHeld speed frameTime rotation = rotation.
Proof.
  destruct rotation as [rx ry]; unfold Scene.update_rotation.
  intros <- <-.
  destruct (KeyHeld Scene.Key_W), (KeyHeld Scene.Key_A);
    apply pair_equal_spec; split; simpl; ring.
Qed.
End ExactConstructors.

(** ** Further properties: row accessors and in-place product, any arithmetic *)

Section RowsMore.
Context {F : Type}.

Lemma offset_range (f : field) : (0 <= offset f <= 15)%Z.
Proof. destruct f; simpl; lia. Qed.

Lemma member_at_outside (i : Z) : (i < 0 \/ 15 < i)%Z -> member_at i = None.
Proof.
  intros Hi; destruct (member_at i) as [f|] eqn:E; [|reflexivity].
  apply member_at_inv in E; pose proof (offset_range f); lia.
Qed.

Lemma row_cases (r : Z) :
  (0 <= r <= 3)%Z -> r = 0%Z \/ r = 1%Z \/ r = 2%Z \/ r = 3%Z.
Proof. lia. Qed.

Lemma SetRow_outside (M : CMatrix4x4 F) (r : Z) (v : CVector3 F) :
  (r < 0 \/ 3 < r)%Z -> SetRow M r v = None.
Proof.
  intros Hr; unfold SetRow, store.
  rewrite (@member_at_outside (r * 4 + 0)) by lia; reflexivity.
Qed.

Lemma GetRow_outside (M : CMatrix4x4 F) (r : Z) :
  (r < 0 \/ 3 < r)%Z -> GetRow M r = None.
Proof.
  intros Hr; unfold GetRow, load.
  rewrite (@member_at_outside (r * 4 + 0)) by lia; reflexivity.
Qed.

Lemma SetRow_inside (M : CMatrix4x4 F) (r : Z) (v : CVector3 F) :
  (0 <= r <= 3)%Z -> SetRow M r v <> None.
Proof.
  intros Hr; destruct (row_cases Hr) as [-> | [-> | [-> | ->]]]; discriminate.
Qed.

Lemma GetRow_inside (M : CMatrix4x4 F) (r : Z) :
  (0 <= r <= 3)%Z -> GetRow M r <> None.
Proof.
  intros Hr; destruct (row_cases Hr) as [-> | [-> | [-> | ->]]]; discriminate.
Qed.

Lemma GetRow_Some_range (M : CMatrix4x4 F) (r : Z) (v : CVector3 F) :
  GetRow M r = Some v -> (0 <= r <= 3)%Z.
Proof.
  intros E; destruct (Z_lt_dec r 0) as [Hl|]; [|destruct (Z_lt_dec 3 r) as [Hg|]; [|lia]].
  - rewrite GetRow_outside in E by lia; discriminate.
  - rewrite GetRow_outside in E by lia; discriminate.
Qed.

Lemma SetRow_Some_range (M M' : CMatrix4x4 F) (r : Z) (v : CVector3 F) :
  SetRow M r v = Some M' -> (0 <= r <= 3)%Z.
Proof.
  intros E; destruct (Z_lt_dec r 0) as [Hl|]; [|destruct (Z_lt_dec 3 r) as [Hg|]; [|lia]].
  - rewrite SetRow_outside in E by lia; discriminate.
  - rewrite SetRow_outside in E by lia; discriminate.
Qed.

(** X17: [SetRow] and [GetRow] stay inside the matrix object exactly for the
    row indices 0, 1, 2 and 3: for any other index, negative or larger,
    their first access already falls outside the sixteen members. *)
Theorem rows_defined (M : CMatrix4x4 F) (r : Z) (v : CVector3 F) :
  (SetRow M r v = None <-> (r < 0 \/ 3 < r)%Z)
  /\ (GetRow M r = None <-> (r < 0 \/ 3 < r)%Z).
Proof.
  split; split.
  - intros E; destruct (Z_lt_dec r 0) as [|]; [left; assumption|].
    destruct (Z_lt_dec 3 r) as [|]; [right; assumption|].
    exfalso; apply (@SetRow_inside M r v); [lia | exact E].
  - apply SetRow_outside.
  - intros E; destruct (Z_lt_dec r 0) as [|]; [left; assumption|].
    destruct (Z_lt_dec 3 r) as [|]; [right; assumption|].
    exfalso; apply (@GetRow_inside M r); [lia | exact E].
  - apply GetRow_outside.
Qed.

(** X18: after a [SetRow] that stays inside the object, [GetRow] of any
    other row index gives what it gave before. *)
Theorem GetRow_SetRow_other (M M' : CMatrix4x4 F) (r r' : Z) (v : CVector3 F) :
  SetRow M r v = Some M' -> r' <> r -> GetRow M' r' = GetRow M r'.
Proof.
  intros E Hne.
  pose proof (SetRow_Some_range _ _ _ E) as Hr.
  destruct (Z_lt_dec r' 0) as [Hl|];
    [rewrite !GetRow_outside by lia; reflexivity|].
  destruct (Z_lt_dec 3 r') as [Hg|];
    [rewrite !GetRow_outside by lia; reflexivity|].
  assert (Hr' : (0 <= r' <= 3)%Z) by lia.
  destruct M, v.
  destruct (row_cases Hr) as [-> | [-> | [-> | ->]]];
    injection E as <-;
    destruct (row_cases Hr') as [-> | [-> | [-> | ->]]];
    solve [reflexivity | contradiction Hne; reflexivity].
Qed.

(** X19: writing back with [SetRow] the vector [GetRow] read from a row
    leaves the matrix as it is. *)
Theorem SetRow_GetRow_same (M : CMatrix4x4 F) (r : Z) (v : CVector3 F) :
  GetRow M r = Some v -> SetRow M r v = Some M.
Proof.
  intros E; pose proof (GetRow_Some_range _ _ E) as Hr.
  destruct M.
  destruct (row_cases Hr) as [-> | [-> | [-> | ->]]];
    injection E as <-; reflexivity.
Qed.

(** X20: of two [SetRow] on the same row the second one wins: the result is
    that of the second call alone. *)
Theorem SetRow_SetRow (M M' : CMatrix4x4 F) (r : Z) (v w : CVector3 F) :
  SetRow M r v = Some M' -> SetRow M' r w = SetRow M r w.
Proof.
  intros E; pose proof (SetRow_Some_range _ _ _ E) as Hr.
  destruct M, v, w.
  destruct (row_cases Hr) as [-> | [-> | [-> | ->]]];
    injection E as <-; reflexivity.
Qed.
End RowsMore.

Section GenericMore.
Context {F : Type} `{Arith F}.

Lemma mul_assign_this (this m : addr) (h : memory) :
  operator_mul_assign this m h this = operator_mul (h this) (h m).
Proof.
  unfold operator_mul_assign.
  destruct (Nat.eqb_spec this m) as [<- | Hm].
  - unfold assign; rewrite Nat.eqb_refl; reflexivity.
  - apply inplace_rows_distinct; assumption.
Qed.

(** X15: [operator*=] writes no object but [*this]: every other matrix in
    memory, the right operand included when it is another object, keeps its
    value. *)
Theorem operator_mul_assign_only_this (this m q : addr) (h : memory) :
  q <> this -> operator_mul_assign this m h q = h q.
Proof. exact (@operator_mul_assign_frame F _ this m q h). Qed.

(** X16: two [operator*=] in a row on the same object, with right operands
    that are other objects, leave in it the product of its old value with
    the first operand, times the second operand. *)
Theorem operator_mul_assign_twice (this a b : addr) (h : memory) :
  a <> this -> b <> this ->
  operator_mul_assign this b (operator_mul_assign this a h) this
  = operator_mul (operator_mul (h this) (h a)) (h b).
Proof.
  intros Ha Hb.
  rewrite mul_assign_this, mul_assign_this.
  rewrite (operator_mul_assign_frame _ h Hb).
  reflexivity.
Qed.

(** X21: [SetRow] of row 3 of the identity builds the translation matrix of
    the vector, and [GetRow] of row 3 of a translation matrix gives its
    vector back. *)
Theorem position_row (t : CVector3 F) :
  SetRow MatrixIdentity 3 t = Some (MatrixTranslation t)
  /\ GetRow (MatrixTranslation t) 3 = Some t.
Proof. destruct t; split; reflexivity. Qed.
End GenericMore.

(** ** Further properties: translations on floats *)

Module FloatMore.
Import Binary32.

Section Translations.
Variables sinf cosf : float -> float.
#[local] Hint Extern 0 (Arith float) =>
  exact (Float.float_arith sinf cosf) : typeclass_instances.
Local Open Scope arith_scope.

Lemma finite_neg (a : float) : finite a = true -> finite (- a) = true.
Proof. destruct a; try discriminate; intros Ha; exact Ha. Qed.

Lemma is_zero_finite (a : float) : is_zero a = true -> finite a = true.
Proof. destruct a; try discriminate; reflexivity. Qed.

Lemma same_value_finite (a' a : float) :
  finite a = true -> same_value a' a -> finite a' = true.
Proof.
  destruct a; try discriminate; simpl; intros Ha Hs.
  - apply is_zero_finite; exact Hs.
  - subst a'; exact Ha.
Qed.

Lemma sub_zero_r (a' a b : float) :
  finite a = true -> same_value a' a -> is_zero b = true -> same_value (a' - b) a.
Proof.
  destruct a as [s | s | | s m e]; try discriminate; intros _ Ha Hb.
  - destruct a' as [[|]| | |], b as [[|]| | |]; try discriminate; reflexivity.
  - simpl in Ha; subst a'; destruct b; try discriminate; reflexivity.
Qed.

Lemma zero_sub (a' a b : float) :
  finite a = true -> is_zero b = true -> same_value a' a -> same_value (b - a') (- a).
Proof.
  destruct a as [s | s | | s m e]; try discriminate; intros _ Hb Ha.
  - destruct a' as [[|]| | |], b as [[|]| | |]; try discriminate; reflexivity.
  - simpl in Ha; subst a'; destruct b; try discriminate; reflexivity.
Qed.

Lemma sub_zero_zero (a b : float) :
  is_zero a = true -> is_zero b = true -> is_zero (a - b) = true.
Proof. destruct a as [[|]| | |], b as [[|]| | |]; try discriminate; reflexivity. Qed.

(** A finite number plus its opposite is a zero. *)
Lemma add_opp (a' a b : float) :
  finite a = true -> same_value a' a -> same_value b (- a) -> is_zero (a' + b) = true.
Proof.
  destruct a as [s | s | | s m e]; try discriminate; intros _ Ha Hb.
  - simpl in Ha, Hb; exact (Float.add_zero_zero sinf cosf _ _ Ha Hb).
  - simpl in Ha, Hb; subst a' b.
    change (is_zero (SFadd prec emax (S754_finite s m e) (S754_finite (negb s) m e)) = true).
    unfold SFadd; rewrite Z.min_id; unfold shl_align; rewrite Z.sub_diag.
    destruct s; simpl; rewrite Z.pos_sub_diag; reflexivity.
Qed.

(** The inverse of a translation, with what does not depend on the vector
    evaluated. *)
Lemma InverseAffine_translation_shape (a b c : float) :
  InverseAffine (MatrixTranslation (mkCVector3 a b c))
  = mkCMatrix4x4 fone fzero fzero fzero
                 fzero fone fzero fzero
                 fzero fzero fone fzero
                 (- a * fone - b * fzero - c * fzero)
                 (- a * fzero - b * fone - c * fzero)
                 (- a * fzero - b * fzero - c * fone)
                 fone.
Proof.
  rewrite InverseAffine_unfold; cbv zeta.
  cbn [MatrixTranslation e00 e01 e02 e03 e10 e11 e12 e13 e20 e21 e22 e23
       e30 e31 e32 e33 x y z].
  apply matrix_eq; try reflexivity; repeat f_equal; reflexivity.
Qed.

Ltac float_finite :=
  first [ assumption | apply finite_neg; assumption | reflexivity ].

Ltac float_zero :=
  first [ reflexivity
        | apply (Float.mul_zero_r sinf cosf); float_finite
        | apply (Float.mul_zero_l sinf cosf); float_finite
        | apply (Float.add_zero_zero sinf cosf); float_zero
        | apply sub_zero_zero; float_zero ].

Ltac float_value :=
  first [ rewrite (Float.mul_one_r sinf cosf) by float_finite;
          apply Float.same_value_refl
        | rewrite (Float.mul_one_l sinf cosf) by float_finite;
          apply Float.same_value_refl
        | apply sub_zero_r; [float_finite | float_value | float_zero]
        | apply zero_sub; [float_finite | float_zero | float_value]
        | apply (Float.add_zero_r sinf cosf); [float_finite | float_value | float_zero]
        | apply (Float.add_zero_l sinf cosf); [float_finite | float_value | float_zero] ].

Lemma inverse_translation_row (a b c : float) :
  finite a = true -> finite b = true -> finite c = true ->
  same_value (- a * fone - b * fzero - c * fzero) (- a)
  /\ same_value (- a * fzero - b * fone - c * fzero) (- b)
  /\ same_value (- a * fzero - b * fzero - c * fone) (- c).
Proof. intros Ha Hb Hc; repeat split; float_value. Qed.

(** X22: on floats the identity matrix is neutral for the product on both
    sides, member by member for [==], on every matrix of finite numbers. *)
Theorem identity_neutral_float (M : CMatrix4x4 float) :
  all_finite M = true ->
  matrix_eqb (operator_mul MatrixIdentity M) M = true
  /\ matrix_eqb (operator_mul M MatrixIdentity) M = true.
Proof. exact (@Float.operator_mul_identity_float sinf cosf M). Qed.

(** X23: on floats, for a vector of finite numbers, [InverseAffine] of its
    translation matrix is, member by member for [==], the translation
    matrix of the opposite vector: no rounding takes place. *)
Theorem InverseAffine_translation_float (t : CVector3 float) :
  finite (x t) = true -> finite (y t) = true -> finite (z t) = true ->
  matrix_eqb (InverseAffine (MatrixTranslation t))
             (MatrixTranslation (mkCVector3 (- x t) (- y t) (- z t))) = true.
Proof.
  destruct t as [a b c]; cbn [x y z]; intros Ha Hb Hc.
  destruct (@inverse_translation_row a b c Ha Hb Hc) as (H0 & H1 & H2).
  rewrite InverseAffine_translation_shape.
  unfold matrix_eqb, all_members, MatrixTranslation.
  cbn [forallb get e00 e01 e02 e03 e10 e11 e12 e13 e20 e21 e22 e23
       e30 e31 e32 e33 x y z].
  repeat (apply andb_true_iff; split); try reflexivity;
    (apply Float.same_value_eqb; [float_finite | assumption]).
Qed.

(** X24: on floats, for a vector of finite numbers, its translation matrix
    times the [InverseAffine] of that matrix is the identity, member by
    member for [==]. *)
Theorem translation_times_inverse_float (t : CVector3 float) :
  finite (x t) = true -> finite (y t) = true -> finite (z t) = true ->
  matrix_eqb (operator_mul (MatrixTranslation t) (InverseAffine (MatrixTranslation t)))
             MatrixIdentity = true.
Proof.
  destruct t as [a b c]; cbn [x y z]; intros Ha Hb Hc.
  destruct (@inverse_translation_row a b c Ha Hb Hc) as (H0 & H1 & H2).
  pose proof (@same_value_finite _ _ (@finite_neg a Ha) H0) as F0.
  pose proof (@same_value_finite _ _ (@finite_neg b Hb) H1) as F1.
  pose proof (@same_value_finite _ _ (@finite_neg c Hc) H2) as F2.
  rewrite InverseAffine_translation_shape.
  revert H0 H1 H2 F0 F1 F2.
  generalize (- a * fone - b * fzero - c * fzero).
  generalize (- a * fzero - b * fone - c * fzero).
  generalize (- a * fzero - b * fzero - c * fone).
  intros o32 o31 o30 H0 H1 H2 F0 F1 F2.
  unfold matrix_eqb, all_members, operator_mul, MatrixTranslation, MatrixIdentity.
  cbn [forallb get e00 e01 e02 e03 e10 e11 e12 e13 e20 e21 e22 e23
       e30 e31 e32 e33 x y z].
  repeat (apply andb_true_iff; split); try reflexivity.
  all: apply Float.same_value_eqb; [reflexivity|].
  all: first
    [ solve [float_value]
    | solve [change (same_value ?e fzero) with (is_zero e = true); float_zero]
    | change (same_value ?e fzero) with (is_zero e = true);
      first [ apply (@add_opp _ a); [float_finite | float_value | ]
            | apply (@add_opp _ b); [float_finite | float_value | ]
            | apply (@add_opp _ c); [float_finite | float_value | ] ];
      rewrite (Float.mul_one_l sinf cosf) by float_finite; assumption ].
Qed.
End Translations.
End FloatMore.

(** ** Further properties: the cube's mesh *)

Module SceneMesh.
Import Scene.

(** X25: the index array has 14 entries for 8 vertices; every index selects
    a vertex and every vertex is selected; read as a strip its triangles are
    the twelve of the comment above it; each of them lies on a face of the
    cube and each of the six faces carries two of them. *)
Theorem cube_strip :
  gCubeNumVertices = 8 /\ gCubeNumIndices = 14
  /\ forallb (fun i => Nat.ltb i gCubeNumVertices) gCubeIndices = true
  /\ forallb (fun v => existsb (Nat.eqb v) gCubeIndices) (seq 0 gCubeNumVertices) = true
  /\ strip_triangles gCubeIndices = commented_triangles
  /\ forallb (fun t => existsb (fun face => triangle_on face t) faces)
             (strip_triangles gCubeIndices) = true
  /\ map (fun face => triangles_on face (strip_triangles gCubeIndices)) faces
     = 2 :: 2 :: 2 :: 2 :: 2 :: 2 :: nil.
Proof. vm_compute; repeat split. Qed.
End SceneMesh.

(** ** The further properties at concrete inputs *)

Module MoreExamples.
Import Binary32 Inputs MoreInputs.

Lemma sheared_is_affine : affine sheared.
Proof. unfold affine, sheared, ints; simpl; repeat split; reflexivity. Defined.

Lemma sheared_has_inverse : det3x3 sheared <> 0%R.
Proof. unfold det3x3, sheared, ints; simpl; lra. Defined.

Lemma stretched_is_affine : affine stretched.
Proof. unfold affine, stretched, ints; simpl; repeat split; reflexivity. Defined.

Lemma stretched_has_inverse : det3x3 stretched <> 0%R.
Proof. unfold det3x3, stretched, ints; simpl; lra. Defined.

Lemma projective_has_inverse : det3x3 projective <> 0%R.
Proof. unfold det3x3, projective, ints; simpl; lra. Defined.

Lemma sheared_times_inverse : operator_mul sheared sheared_inverse = MatrixIdentity.
Proof.
  unfold operator_mul, sheared, sheared_inverse, MatrixIdentity, ints; simpl.
  apply matrix_eq; lra.
Defined.

Lemma counting_row_set : SetRow counting 3 seven_eight_nine = Some counting_moved.
Proof. reflexivity. Defined.

Lemma InverseAffine_two_sided_witness :
  det3x3 projective <> 0%R
  /\ operator_mul (InverseAffine projective) (affine_part projective) = MatrixIdentity
  /\ operator_mul (affine_part projective) (InverseAffine projective) = MatrixIdentity.
Proof.
  split; [exact projective_has_inverse|].
  exact (InverseAffine_two_sided projective_has_inverse).
Defined.

Lemma InverseAffine_unique_witness :
  affine sheared /\ det3x3 sheared <> 0%R
  /\ operator_mul sheared sheared_inverse = MatrixIdentity
  /\ sheared_inverse = InverseAffine sheared.
Proof.
  split; [exact sheared_is_affine|]; split; [exact sheared_has_inverse|].
  split; [exact sheared_times_inverse|].
  exact (InverseAffine_unique sheared_is_affine sheared_has_inverse
           (or_introl sheared_times_inverse)).
Defined.

Lemma affine_product_witness :
  affine sheared /\ affine stretched
  /\ affine (operator_mul sheared stretched)
  /\ det3x3 (operator_mul sheared stretched) = (det3x3 sheared * det3x3 stretched)%R.
Proof.
  split; [exact sheared_is_affine|]; split; [exact stretched_is_affine|].
  exact (affine_product sheared_is_affine stretched_is_affine).
Defined.

Lemma InverseAffine_product_witness :
  affine sheared /\ affine stretched
  /\ det3x3 sheared <> 0%R /\ det3x3 stretched <> 0%R
  /\ InverseAffine (operator_mul sheared stretched)
     = operator_mul (InverseAffine stretched) (InverseAffine sheared).
Proof.
  split; [exact sheared_is_affine|]; split; [exact stretched_is_affine|].
  split; [exact sheared_has_inverse|]; split; [exact stretched_has_inverse|].
  exact (InverseAffine_product sheared_is_affine stretched_is_affine
           sheared_has_inverse stretched_has_inverse).
Defined.

Lemma InverseAffine_twice_witness :
  det3x3 projective <> 0%R
  /\ InverseAffine (InverseAffine projective) = affine_part projective
  /\ det3x3 (InverseAffine projective) = (/ det3x3 projective)%R
  /\ det3x3 (InverseAffine projective) <> 0%R.
Proof.
  split; [exact projective_has_inverse|].
  exact (InverseAffine_twice projective_has_inverse).
Defined.

Lemma InverseAffine_MatrixScaling_witness :
  x factors <> 0%R /\ y factors <> 0%R /\ z factors <> 0%R
  /\ det3x3 (MatrixScaling factors) = (x factors * y factors * z factors)%R
  /\ InverseAffine (MatrixScaling factors)
     = MatrixScaling (mkCVector3 (/ x factors)%R (/ y factors)%R (/ z factors)%R).
Proof.
  assert (Hx : x factors <> 0%R) by (simpl; lra).
  assert (Hy : y factors <> 0%R) by (simpl; lra).
  assert (Hz : z factors <> 0%R) by (simpl; lra).
  split; [exact Hx|]; split; [exact Hy|]; split; [exact Hz|].
  exact (InverseAffine_MatrixScaling factors Hx Hy Hz).
Defined.

Lemma opposing_keys_cancel_witness :
  all_keys Scene.Key_W = all_keys Scene.Key_S
  /\ all_keys Scene.Key_A = all_keys Scene.Key_D
  /\ Scene.update_rotation all_keys 2%R 3%R (1%R, 0%R) = (1%R, 0%R).
Proof.
  split; [reflexivity|]; split; [reflexivity|].
  exact (opposing_keys_cancel all_keys 2%R 3%R (1%R, 0%R) eq_refl eq_refl).
Defined.

Lemma operator_mul_assign_only_this_witness :
  1%nat <> 0%nat
  /\ operator_mul_assign 0 1 two_objects 1%nat = two_objects 1%nat.
Proof.
  assert (Hq : 1%nat <> 0%nat) by discriminate.
  split; [exact Hq|].
  exact (operator_mul_assign_only_this 1 two_objects Hq).
Defined.

Lemma operator_mul_assign_twice_witness :
  1%nat <> 0%nat /\ 2%nat <> 0%nat
  /\ operator_mul_assign 0 2 (operator_mul_assign 0 1 two_objects) 0%nat
     = operator_mul (operator_mul (two_objects 0%nat) (two_objects 1%nat))
                    (two_objects 2%nat).
Proof.
  assert (Ha : 1%nat <> 0%nat) by discriminate.
  assert (Hb : 2%nat <> 0%nat) by discriminate.
  split; [exact Ha|]; split; [exact Hb|].
  exact (operator_mul_assign_twice two_objects Ha Hb).
Defined.

Lemma GetRow_SetRow_other_witness :
  SetRow counting 3 seven_eight_nine = Some counting_moved
  /\ 0%Z <> 3%Z
  /\ GetRow counting_moved 0 = GetRow counting 0.
Proof.
  assert (Hne : 0%Z <> 3%Z) by discriminate.
  split; [exact counting_row_set|]; split; [exact Hne|].
  exact (@GetRow_SetRow_other float counting counting_moved 3 0 seven_eight_nine
           counting_row_set Hne).
Defined.

Lemma SetRow_GetRow_same_witness :
  GetRow counting 3 = Some last_row
  /\ SetRow counting 3 last_row = Some counting.
Proof.
  assert (E : GetRow counting 3 = Some last_row) by reflexivity.
  split; [exact E|].
  exact (@SetRow_GetRow_same float counting 3 last_row E).
Defined.

Lemma SetRow_SetRow_witness :
  SetRow counting 3 seven_eight_nine = Some counting_moved
  /\ SetRow counting_moved 3 last_row = SetRow counting 3 last_row.
Proof.
  split; [exact counting_row_set|].
  exact (@SetRow_SetRow float counting counting_moved 3 seven_eight_nine last_row
           counting_row_set).
Defined.

Lemma identity_neutral_float_witness :
  all_finite counting = true
  /\ matrix_eqb (operator_mul MatrixIdentity counting) counting = true
  /\ matrix_eqb (operator_mul counting MatrixIdentity) counting = true.
Proof.
  assert (Hf : all_finite counting = true) by reflexivity.
  split; [exact Hf|].
  exact (@FloatMore.identity_neutral_float (fun a => a) (fun a => a) counting Hf).
Defined.

Lemma InverseAffine_translation_float_witness :
  finite (x seven_eight_nine) = true /\ finite (y seven_eight_nine) = true
  /\ finite (z seven_eight_nine) = true
  /\ matrix_eqb (InverseAffine (MatrixTranslation seven_eight_nine))
       (MatrixTranslation (mkCVector3 (SFopp (x seven_eight_nine))
                                      (SFopp (y seven_eight_nine))
                                      (SFopp (z seven_eight_nine)))) = true.
Proof.
  split; [reflexivity|]; split; [reflexivity|]; split; [reflexivity|].
  exact (@FloatMore.InverseAffine_translation_float (fun a => a) (fun a => a)
           seven_eight_nine eq_refl eq_refl eq_refl).
Defined.

Lemma translation_times_inverse_float_witness :
  finite (x seven_eight_nine) = true /\ finite (y seven_eight_nine) = true
  /\ finite (z seven_eight_nine) = true
  /\ matrix_eqb (operator_mul (MatrixTranslation seven_eight_nine)
                              (InverseAffine (MatrixTranslation seven_eight_nine)))
                MatrixIdentity = true.
Proof.
  split; [reflexivity|]; split; [reflexivity|]; split; [reflexivity|].
  exact (@FloatMore.translation_times_inverse_float (fun a => a) (fun a => a)
           seven_eight_nine eq_refl eq_refl eq_refl).
Defined.

(** On floats opposing keys need not cancel: from the angle 1 with a step of
    2^-24, adding rounds back to 1 and subtracting then leaves 1 - 2^-24. *)
Example opposing_keys_drift :
  let step := S754_finite false 8388608 (-47) in
  Scene.update_rotation all_keys step (of_Z 1) (of_Z 1, of_Z 0)
  = (S754_finite false 16777215 (-24), S754_zero false).
Proof. vm_compute; reflexivity. Qed.
End MoreExamples.

(** ** The inverse on floats, away from exact arithmetic *)

Module Conditioning.
Import Binary32 Inputs Tolerance.

(** The floats of [nearly_singular] are exactly the integers of the table,
    all finite, and over the reals the table is an affine matrix whose 3x3
    block has determinant 5. *)
Lemma nearly_singular_exact :
  all_finite nearly_singular = true
  /\ integer_members nearly_singular
     = map Some (265 :: 140 :: 155 :: 0 :: -181 :: 243 :: 269 :: 0
                 :: -14 :: 1009 :: 1117 :: 0 :: 0 :: 0 :: 0 :: 1 :: nil)%Z
  /\ affine (nearly_singular_at IZR)
  /\ det3x3 (nearly_singular_at IZR) = 5%R.
Proof.
  split; [reflexivity|]; split; [reflexivity|]; split.
  - unfold affine, nearly_singular_at, ints; simpl; repeat split; reflexivity.
  - unfold det3x3, nearly_singular_at, ints; simpl; lra.
Qed.

(** C1, on floats: [nearly_singular] has finite members, the last column
    (0, 0, 0, 1) and a 3x3 block of determinant 5, yet the product with its
    [InverseAffine] has 0.5 at e00, -0.25 at e12 and -2 at e20, finite
    numbers that are not the identity's within the tolerance. *)
Lemma product_with_inverse_float_far :
  all_finite nearly_singular = true
  /\ affine (nearly_singular_at IZR)
  /\ det3x3 (nearly_singular_at IZR) <> 0%R
  /\ all_finite (operator_mul nearly_singular (InverseAffine nearly_singular)) = true
  /\ e00 (operator_mul nearly_singular (InverseAffine nearly_singular))
     = SFdiv prec emax (of_Z 1) (of_Z 2)
  /\ e12 (operator_mul nearly_singular (InverseAffine nearly_singular))
     = SFdiv prec emax (of_Z (-1)) (of_Z 4)
  /\ e20 (operator_mul nearly_singular (InverseAffine nearly_singular))
     = of_Z (-2)
  /\ matrix_within_tolerance
       (operator_mul nearly_singular (InverseAffine nearly_singular))
       MatrixIdentity = false.
Proof.
  destruct nearly_singular_exact as (Hfin & _ & Haff & Hdet).
  split; [exact Hfin|]; split; [exact Haff|].
  split; [rewrite Hdet; lra|].
  vm_compute; repeat split.
Qed.

(** C4, on floats: [InverseAffine] applied twice to [nearly_singular] gives
    finite numbers far from it: a negative zero at e00, where the matrix has
    265, and a number between -2 and -1 at e22, where it has 1117. *)
Lemma double_inverse_float_far :
  all_finite nearly_singular = true
  /\ affine (nearly_singular_at IZR)
  /\ det3x3 (nearly_singular_at IZR) <> 0%R
  /\ all_finite (InverseAffine (InverseAffine nearly_singular)) = true
  /\ e00 nearly_singular = of_Z 265
  /\ e00 (InverseAffine (InverseAffine nearly_singular)) = S754_zero true
  /\ e22 nearly_singular = of_Z 1117
  /\ SFltb (of_Z (-2)) (e22 (InverseAffine (InverseAffine nearly_singular))) = true
  /\ SFltb (e22 (InverseAffine (InverseAffine nearly_singular))) (of_Z (-1)) = true
  /\ matrix_within_tolerance
       (InverseAffine (InverseAffine nearly_singular)) nearly_singular = false.
Proof.
  destruct nearly_singular_exact as (Hfin & _ & Haff & Hdet).
  split; [exact Hfin|]; split; [exact Haff|].
  split; [rewrite Hdet; lra|].
  vm_compute; repeat split.
Qed.

(** The tolerance does accept what is equal, and the translation by
    (5, 0, 0) times its inverse. *)
Example within_tolerance_accepts :
  matrix_within_tolerance nearly_singular nearly_singular = true
  /\ matrix_within_tolerance
       (operator_mul (MatrixTranslation (mkCVector3 (of_Z 5) (of_Z 0) (of_Z 0)))
          (InverseAffine (MatrixTranslation (mkCVector3 (of_Z 5) (of_Z 0) (of_Z 0)))))
       MatrixIdentity = true.
Proof. vm_compute; repeat split. Qed.
End Conditioning.
